(** * flarelog: a colourising [slog] handler with a console and a file sink

    A shallow embedding of [flarelog/main.go] together with the parts of
    Go's [log/slog] and [encoding/json] packages that the handler calls.

    Conventions.
    - A Go [string] and a Go [[]byte] are both byte sequences; they are
      modelled by [string] (a list of 8-bit characters).
    - [slog.Level] is a Go [int]; it is modelled by [Z].  The only
      arithmetic on levels is [LevelError+1] and the offsets taken by
      [Level.String], none of which can overflow.
    - Pointers ([*bytes.Buffer], [*sync.Mutex]) are addresses into a store,
      so that two handlers holding the same pointer alias one object. *)

From Stdlib Require Import ZArith String Ascii List Bool Lia.
From Stdlib Require Import Decimal DecimalFacts DecimalPos DecimalString.
From Stdlib Require Import OrderedTypeEx.
From stdpp Require Import base option list gmap strings.

#[local] Set Warnings "-register-all".

Local Open Scope string_scope.
Local Open Scope list_scope.
Local Open Scope Z_scope.

(** ** [strconv], errors *)

(** [strconv.Itoa]: decimal digits, with a leading minus sign for a
    negative number. *)
Definition Itoa (n : Z) : string := NilZero.string_of_int (Z.to_int n).

(** An [error] value: a syntax or type error of [encoding/json], a plain
    error, or an error wrapped by [fmt.Errorf] with the verb [%w]. *)
Inductive error : Type :=
| SyntaxError (msg : string)
| UnmarshalTypeError (msg : string)
| errorString (msg : string)
| wrapError (msg : string) (err : error).

(** [err.Error()]. *)
Definition Error (e : error) : string :=
  match e with
  | SyntaxError msg | UnmarshalTypeError msg | errorString msg => msg
  | wrapError msg _ => msg
  end.

(** [fmt.Errorf(context + "%w", err)]: the message is the context followed
    by the message of the wrapped error. *)
Definition Errorf (context : string) (err : error) : error :=
  wrapError (context +:+ Error err) err.


(** A Go result pair [(value, error)] of which exactly one is set. *)
Inductive result (A : Type) : Type :=
| Ok (a : A)
| Err (e : error).
Arguments Ok {A} a.
Arguments Err {A} e.

(** ** [bytes.Buffer] and the store

    A [*bytes.Buffer] is an address; the store maps the address of every
    allocated buffer to its contents. *)

Definition loc : Type := nat.

Module bytes.

(** [b.Bytes()]. *)
Definition Bytes (bufs : gmap loc string) (b : loc) : string :=
  default "" (bufs !! b).

(** [b.Write(p)], which appends and never fails. *)
Definition Write (bufs : gmap loc string) (b : loc) (p : string) : gmap loc string :=
  <[b := Bytes bufs b +:+ p]> bufs.

(** [b.Reset()]. *)
Definition Reset (bufs : gmap loc string) (b : loc) : gmap loc string :=
  <[b := ""]> bufs.

End bytes.

(** ** The model of [encoding/json]

    JSON numbers are held as integers: the handlers below write integers
    only, and Go's [float64] represents them exactly up to 2^53.  Strings
    are assumed to be valid UTF-8 without the code points U+2028 and
    U+2029, which [encoding/json] would escape; a number with a fraction or
    an exponent, and a [\u] escape of a surrogate pair, are outside the
    model. *)

Module json.

Inductive value : Type :=
| Null
| Bool (b : bool)
| Num (n : Z)
| Str (s : string)
| Arr (l : list value)
| Obj (m : list (string * value)).

(** A Go [map[string]any]: [None] is the nil map. *)
Definition Map : Type := option (list (string * value)).

Definition dquote : ascii := "034"%char.
Definition backslash : ascii := "092"%char.

Definition hexDigit (n : N) : ascii :=
  match n with
  | 0 => "0" | 1 => "1" | 2 => "2" | 3 => "3" | 4 => "4" | 5 => "5"
  | 6 => "6" | 7 => "7" | 8 => "8" | 9 => "9" | 10 => "a" | 11 => "b"
  | 12 => "c" | 13 => "d" | 14 => "e" | _ => "f"
  end%N%char.

(** The escape [\u00XX] of a byte. *)
Definition u00 (c : ascii) : string :=
  let n := N_of_ascii c in
  String backslash
    (String "u" (String "0" (String "0"
      (String (hexDigit (n / 16)%N) (String (hexDigit (n mod 16)%N) ""))))).

(** One byte of a string literal.  [html] is [escapeHTML], set by
    [json.Marshal] and not by slog's writer; [short] tells whether
    backspace and form feed have a two-character escape, which they have in
    [encoding/json] and not in slog's copy of it. *)
Definition escapeByte (html short : bool) (c : ascii) : string :=
  let n := N_of_ascii c in
  if Ascii.eqb c dquote then String backslash (String dquote "")
  else if Ascii.eqb c backslash then String backslash (String backslash "")
  else if (n =? 10)%N then String backslash "n"
  else if (n =? 13)%N then String backslash "r"
  else if (n =? 9)%N then String backslash "t"
  else if short && (n =? 8)%N then String backslash "b"
  else if short && (n =? 12)%N then String backslash "f"
  else if (n <? 32)%N then u00 c
  else if html && ((n =? 60) || (n =? 62) || (n =? 38))%N then u00 c
  else String c "".

Fixpoint escape (html short : bool) (s : string) : string :=
  match s with
  | EmptyString => ""
  | String c s => escapeByte html short c +:+ escape html short s
  end.

Definition quote (html short : bool) (s : string) : string :=
  String dquote (escape html short s) +:+ String dquote "".

(** *** Compact output, as slog's JSON handler writes it *)

(** The texts of the items of a list, separated by commas. *)
Definition commaSeparated {A : Type} (text : A -> string) : list A -> string :=
  fix items (l : list A) : string :=
    match l with
    | [] => ""
    | [x] => text x
    | x :: l => text x +:+ "," +:+ items l
    end.

Fixpoint compact (v : value) : string :=
  match v with
  | Null => "null"
  | Bool b => if b then "true" else "false"
  | Num n => Itoa n
  | Str s => quote false false s
  | Arr l => "[" +:+ commaSeparated compact l +:+ "]"
  | Obj m =>
      "{" +:+
      commaSeparated
        (fun kx => let '(k, x) := kx in quote false false k +:+ ":" +:+ compact x) m
      +:+ "}"
  end.

(** *** Maps: assignment and key order *)

(** [m[k] = x] on a map held as a list sorted by key. *)
Fixpoint mapSet (k : string) (x : value) (m : list (string * value))
  : list (string * value) :=
  match m with
  | [] => [(k, x)]
  | (k', x') :: m' =>
      match String.compare k k' with
      | Lt => (k, x) :: m
      | Eq => (k, x) :: m'
      | Gt => (k', x') :: mapSet k x m'
      end
  end.


(** The members read from a document, assigned one after the other to the
    keys of a map, so that a later duplicate of a key wins; [convert] is
    applied to each value. *)
Definition assignAll (convert : value -> value)
  : list (string * value) -> list (string * value) -> list (string * value) :=
  fix assign (m acc : list (string * value)) : list (string * value) :=
    match m with
    | [] => acc
    | (k, x) :: m => assign m (mapSet k (convert x) acc)
    end.

(** A document as Go values: every object becomes a map. *)
Fixpoint toMaps (v : value) : value :=
  match v with
  | Arr l => Arr (List.map toMaps l)
  | Obj m => Obj (assignAll toMaps m [])
  | _ => v
  end.

(** *** [json.MarshalIndent(v, "", "  ")] *)

(** Map keys are written in sorted order. *)
Fixpoint insertByKey (kx : string * value) (m : list (string * value))
  : list (string * value) :=
  match m with
  | [] => [kx]
  | kx' :: m' =>
      match String.compare (fst kx) (fst kx') with
      | Gt => kx' :: insertByKey kx m'
      | _ => kx :: m
      end
  end.

Fixpoint sortKeys (v : value) : value :=
  match v with
  | Arr l => Arr (List.map sortKeys l)
  | Obj m =>
      Obj ((fix sorted (m : list (string * value)) : list (string * value) :=
              match m with
              | [] => []
              | (k, x) :: m => insertByKey (k, sortKeys x) (sorted m)
              end) m)
  | _ => v
  end.

Fixpoint spaces (n : nat) : string :=
  match n with O => "" | S n => "  " +:+ spaces n end.

Definition newline : string := String "010"%char "".

(** The indented text of a value at nesting depth [d]; an empty array or
    object stays on one line. *)
Fixpoint indented (d : nat) (v : value) : string :=
  match v with
  | Null => "null"
  | Bool b => if b then "true" else "false"
  | Num n => Itoa n
  | Str s => quote true true s
  | Arr [] => "[]"
  | Arr l =>
      "[" +:+ newline +:+
      (fix elems (l : list value) : string :=
         match l with
         | [] => ""
         | [x] => spaces (S d) +:+ indented (S d) x +:+ newline
         | x :: l => spaces (S d) +:+ indented (S d) x +:+ "," +:+ newline +:+ elems l
         end) l
      +:+ spaces d +:+ "]"
  | Obj [] => "{}"
  | Obj m =>
      "{" +:+ newline +:+
      (fix members (m : list (string * value)) : string :=
         match m with
         | [] => ""
         | [(k, x)] =>
             spaces (S d) +:+ quote true true k +:+ ": " +:+ indented (S d) x +:+ newline
         | (k, x) :: m =>
             spaces (S d) +:+ quote true true k +:+ ": " +:+ indented (S d) x +:+ ","
             +:+ newline +:+ members m
         end) m
      +:+ spaces d +:+ "}"
  end.

(** [json.MarshalIndent(attrs, "", "  ")] for [attrs] of type
    [map[string]any].  Every value that [Unmarshal] can produce has an
    encoding, so the call cannot fail on such a map. *)
Definition MarshalIndent (attrs : Map) : result string :=
  match attrs with
  | None => Ok "null"
  | Some m => Ok (indented 0 (sortKeys (Obj m)))
  end.

(** *** [json.Unmarshal] into a [map[string]any] *)

Definition isSpace (c : ascii) : bool :=
  let n := N_of_ascii c in ((n =? 32) || (n =? 9) || (n =? 10) || (n =? 13))%N.

Fixpoint skipSpace (s : string) : string :=
  match s with
  | String c r => if isSpace c then skipSpace r else s
  | EmptyString => s
  end.

Definition digitVal (c : ascii) : option Z :=
  let n := N_of_ascii c in
  if ((48 <=? n) && (n <=? 57))%N then Some (Z.of_N n - 48) else None.

Definition hexVal (c : ascii) : option N :=
  let n := N_of_ascii c in
  if ((48 <=? n) && (n <=? 57))%N then Some (n - 48)%N
  else if ((97 <=? n) && (n <=? 102))%N then Some (n - 87)%N
  else if ((65 <=? n) && (n <=? 70))%N then Some (n - 55)%N
  else None.

(** The UTF-8 bytes of a code point of the basic plane. *)
Definition utf8 (cp : N) : string :=
  (if cp <? 128 then String (ascii_of_N cp) ""
   else if cp <? 2048 then
     String (ascii_of_N (192 + cp / 64)) (String (ascii_of_N (128 + cp mod 64)) "")
   else
     String (ascii_of_N (224 + cp / 4096))
       (String (ascii_of_N (128 + (cp / 64) mod 64))
          (String (ascii_of_N (128 + cp mod 64)) "")))%N.

(** The rest of a string literal, after its opening quote: the decoded
    text and what follows the closing quote. *)
Fixpoint parseString (s : string) : option (string * string) :=
  match s with
  | EmptyString => None
  | String c r =>
      if Ascii.eqb c dquote then Some ("", r)
      else if Ascii.eqb c backslash then
        match r with
        | String e r' =>
            let lit (x : string) :=
              '(t, rest) ← parseString r'; Some (x +:+ t, rest) in
            if Ascii.eqb e dquote then lit (String dquote "")
            else if Ascii.eqb e backslash then lit (String backslash "")
            else match e with
                 | "/"%char => lit "/"
                 | "b"%char => lit (String "008"%char "")
                 | "f"%char => lit (String "012"%char "")
                 | "n"%char => lit (String "010"%char "")
                 | "r"%char => lit (String "013"%char "")
                 | "t"%char => lit (String "009"%char "")
                 | "u"%char =>
                     match r' with
                     | String h1 (String h2 (String h3 (String h4 r''))) =>
                         a ← hexVal h1; b ← hexVal h2; c ← hexVal h3; d ← hexVal h4;
                         '(t, rest) ← parseString r'';
                         Some (utf8 (((a * 16 + b) * 16 + c) * 16 + d)%N +:+ t, rest)
                     | _ => None
                     end
                 | _ => None
                 end
        | EmptyString => None
        end
      else if (N_of_ascii c <? 32)%N then None
      else '(t, rest) ← parseString r; Some (String c t, rest)
  end.

(** The digits that continue a number. *)
Fixpoint parseDigits (acc : Z) (s : string) : Z * string :=
  match s with
  | String c r =>
      match digitVal c with
      | Some d => parseDigits (acc * 10 + d) r
      | None => (acc, s)
      end
  | EmptyString => (acc, s)
  end.

(** An unsigned integer literal: a single zero, or digits not starting
    with zero. *)
Definition parseNat (s : string) : option (Z * string) :=
  match s with
  | String c r =>
      match digitVal c with
      | Some 0 =>
          match r with
          | String c' _ =>
              match digitVal c' with Some _ => None | None => Some (0, r) end
          | EmptyString => Some (0, r)
          end
      | Some d => Some (parseDigits d r)
      | None => None
      end
  | EmptyString => None
  end.

(** A number must not run into a fraction or an exponent. *)
Definition endsNumber (s : string) : bool :=
  match s with
  | String c _ =>
      negb (Ascii.eqb c "." || Ascii.eqb c "e" || Ascii.eqb c "E")
  | EmptyString => true
  end.

(** [s] without the prefix [p], when [s] starts with [p]. *)
Fixpoint after (p s : string) : option string :=
  match p, s with
  | EmptyString, _ => Some s
  | String a p, String b s => if Ascii.eqb a b then after p s else None
  | String _ _, EmptyString => None
  end.

Fixpoint parseValue (fuel : nat) (s : string) : option (value * string) :=
  match fuel with
  | O => None
  | S fuel =>
      match skipSpace s with
      | EmptyString => None
      | String c r =>
          if Ascii.eqb c "{" then
            match after "}" (skipSpace r) with
            | Some r' => Some (Obj [], r')
            | None => parseMembers fuel r []
            end
          else if Ascii.eqb c "[" then
            match after "]" (skipSpace r) with
            | Some r' => Some (Arr [], r')
            | None => parseElements fuel r []
            end
          else if Ascii.eqb c dquote then
            '(t, r') ← parseString r; Some (Str t, r')
          else if Ascii.eqb c "t" then
            r' ← after "rue" r; Some (Bool true, r')
          else if Ascii.eqb c "f" then
            r' ← after "alse" r; Some (Bool false, r')
          else if Ascii.eqb c "n" then
            r' ← after "ull" r; Some (Null, r')
          else if Ascii.eqb c "-" then
            '(n, r') ← parseNat r;
            if endsNumber r' then Some (Num (- n), r') else None
          else
            '(n, r') ← parseNat (String c r);
            if endsNumber r' then Some (Num n, r') else None
      end
  end
with parseMembers (fuel : nat) (s : string) (acc : list (string * value))
  : option (value * string) :=
  match fuel with
  | O => None
  | S fuel =>
      r ← after (String dquote "") (skipSpace s);
      '(k, r1) ← parseString r;
      r2 ← after ":" (skipSpace r1);
      '(x, r3) ← parseValue fuel r2;
      match skipSpace r3 with
      | EmptyString => None
      | String c r4 =>
          if Ascii.eqb c "," then parseMembers fuel r4 (acc ++ [(k, x)])
          else if Ascii.eqb c "}" then Some (Obj (acc ++ [(k, x)]), r4)
          else None
      end
  end
with parseElements (fuel : nat) (s : string) (acc : list value)
  : option (value * string) :=
  match fuel with
  | O => None
  | S fuel =>
      '(x, r) ← parseValue fuel s;
      match skipSpace r with
      | EmptyString => None
      | String c r' =>
          if Ascii.eqb c "," then parseElements fuel r' (acc ++ [x])
          else if Ascii.eqb c "]" then Some (Arr (acc ++ [x]), r')
          else None
      end
  end.

(** One JSON text: a value with nothing but white space around it.  Every
    call of the parser consumes a byte, so the length of the text bounds
    the number of nested calls. *)
Definition parse (data : string) : option value :=
  '(v, rest) ← parseValue (S (String.length data)) data;
  match skipSpace rest with
  | EmptyString => Some v
  | _ => None
  end.

(** [json.Unmarshal(data, &attrs)] with [attrs] a nil [map[string]any]: an
    object fills a fresh map, [null] leaves the map nil, any other value is
    a type error and any other text a syntax error.

    Two refusals of the decoder are outside the model: of a number that a
    [float64] cannot hold, which no [int64] is, and of a document nested
    deeper than 10000.  The decoder turns every number into a [float64];
    the model keeps the integer, which is the same number up to 2^53. *)
Definition Unmarshal (data : string) : result Map :=
  match parse data with
  | None => Err (SyntaxError "invalid JSON input")
  | Some Null => Ok None
  | Some (Obj m) => Ok (Some (assignAll toMaps m []))
  | Some _ =>
      Err (UnmarshalTypeError
             "json: cannot unmarshal into Go value of type map[string]interface {}")
  end.

End json.

(** ** The model of [log/slog] (Go 1.22) *)

Module slog.

(** *** Levels *)

Definition Level : Type := Z.

Definition LevelDebug : Level := -4.
Definition LevelInfo : Level := 0.
Definition LevelWarn : Level := 4.
Definition LevelError : Level := 8.

Definition TimeKey : string := "time".
Definition LevelKey : string := "level".
Definition MessageKey : string := "msg".
Definition SourceKey : string := "source".

(** [fmt.Sprintf("%s%+d", base, val)] inside [Level.String]: the offset is
    printed with its sign, and omitted when it is zero. *)
Definition levelStr (base : string) (val : Z) : string :=
  if val =? 0 then base
  else if 0 <? val then base +:+ "+" +:+ Itoa val
  else base +:+ Itoa val.

(** [Level.String]. *)
Definition Level_String (l : Level) : string :=
  if l <? LevelInfo then levelStr "DEBUG" (l - LevelDebug)
  else if l <? LevelWarn then levelStr "INFO" (l - LevelInfo)
  else if l <? LevelError then levelStr "WARN" (l - LevelWarn)
  else levelStr "ERROR" (l - LevelError).

(** *** Times

    A [time.Time] is an instant together with its [Format] method, which
    depends on the time zone database and is taken as given.  [wall] counts
    from the zero time, so that [IsZero] is [wall = 0]. *)
Record Time : Type := mkTime { wall : Z; Format : string -> string }.

Definition Time_IsZero (t : Time) : bool := wall t =? 0.
Definition Time_Equal (t u : Time) : bool := wall t =? wall u.

Definition RFC3339Nano : string := "2006-01-02T15:04:05.999999999Z07:00".
Definition timeStringLayout : string := "2006-01-02 15:04:05.999999999 -0700 MST".

(** [Time.String] (without the monotonic clock reading). *)
Definition Time_String (t : Time) : string := Format t timeStringLayout.

(** *** Values and attributes *)

(** [*slog.Source]. *)
Record Source : Type := mkSource { Function : string; File : string; Line : Z }.

(** A [slog.Value], by kind.  The three [Any...] constructors are the
    values of [KindAny] that occur: the zero [Value] (which holds [nil]), a
    [Level] as built by [slog.AnyValue(r.Level)], and a [*Source].

    The kinds Float64, Uint64, Duration and LogValuer, and the values of
    [KindAny] that hold anything else (a [json.Number], a [json.Marshaler],
    a [*big.Int]), are outside the model, and an [int64] is held as an
    integer without its bounds: the records of this development carry
    attributes of the kinds below only, and what is proved of the text that
    the delegate writes for a record, and of its decoding, is proved for
    these kinds. *)
Inductive Value : Type :=
| AnyNil
| AnyLevel (l : Level)
| AnySource (s : Source)
| StringValue (s : string)
| Int64Value (n : Z)
| BoolValue (b : bool)
| TimeValue (t : Time)
| GroupValue (g : list Attr)
with Attr : Type :=
| mkAttr (k : string) (v : Value).

Definition Key (a : Attr) : string := let 'mkAttr k _ := a in k.
Definition Val (a : Attr) : Value := let 'mkAttr _ v := a in v.

(** [slog.Attr{}], the zero attribute. *)
Definition emptyAttr : Attr := mkAttr "" AnyNil.

Definition isGroup (v : Value) : bool :=
  match v with GroupValue _ => true | _ => false end.

Definition Source_eqb (s t : Source) : bool :=
  String.eqb (Function s) (Function t) && String.eqb (File s) (File t)
  && (Line s =? Line t).

(** [Value.Equal] and [Attr.Equal]. *)
Fixpoint Value_Equal (v w : Value) {struct v} : bool :=
  match v, w with
  | AnyNil, AnyNil => true
  | AnyLevel l, AnyLevel l' => l =? l'
  | AnySource s, AnySource s' => Source_eqb s s'
  | StringValue s, StringValue s' => String.eqb s s'
  | Int64Value n, Int64Value n' => n =? n'
  | BoolValue b, BoolValue b' => Bool.eqb b b'
  | TimeValue t, TimeValue t' => Time_Equal t t'
  | GroupValue g, GroupValue g' =>
      (fix eqs (g g' : list Attr) {struct g} : bool :=
         match g, g' with
         | [], [] => true
         | mkAttr k x :: g, mkAttr k' x' :: g' =>
             String.eqb k k' && Value_Equal x x' && eqs g g'
         | _, _ => false
         end) g g'
  | _, _ => false
  end.

Definition Attr_Equal (a b : Attr) : bool :=
  String.eqb (Key a) (Key b) && Value_Equal (Val a) (Val b).

(** [Attr.isEmpty], the test the handlers use to elide an attribute. *)
Definition isEmpty (a : Attr) : bool :=
  String.eqb (Key a) "" && match Val a with AnyNil => true | _ => false end.

(** [Value.String]: the text [fmt.Sprint] gives for the value; an attribute
    prints as [key=value] and a group as the bracketed list of its
    attributes. *)
Fixpoint Value_String (v : Value) : string :=
  match v with
  | AnyNil => "<nil>"
  | AnyLevel l => Level_String l
  | AnySource s =>
      "&{" +:+ Function s +:+ " " +:+ File s +:+ " " +:+ Itoa (Line s) +:+ "}"
  | StringValue s => s
  | Int64Value n => Itoa n
  | BoolValue b => if b then "true" else "false"
  | TimeValue t => Time_String t
  | GroupValue g =>
      "[" +:+
      (fix strs (g : list Attr) : string :=
         match g with
         | [] => ""
         | [mkAttr k x] => k +:+ "=" +:+ Value_String x
         | mkAttr k x :: g => k +:+ "=" +:+ Value_String x +:+ " " +:+ strs g
         end) g
      +:+ "]"
  end.

(** [Source.group]: the fields that are set, as a group. *)
Definition Source_group (s : Source) : Value :=
  GroupValue
    ((if String.eqb (Function s) "" then [] else [mkAttr "function" (StringValue (Function s))])
     ++ (if String.eqb (File s) "" then [] else [mkAttr "file" (StringValue (File s))])
     ++ (if Line s =? 0 then [] else [mkAttr "line" (Int64Value (Line s))])).

(** *** Records and options *)

Record Record : Type := mkRecord {
  Time_ : Time;
  Message : string;
  Level_ : Level;
  source : Source;
  Attrs : list Attr
}.

(** The type of [HandlerOptions.ReplaceAttr]; a nil function is [None]. *)
Definition ReplaceAttrFn : Type := list string -> Attr -> Attr.

Record HandlerOptions : Type := mkHandlerOptions {
  AddSource : bool;
  Level_opt : option Level;
  ReplaceAttr : option ReplaceAttrFn
}.

(** [slog.HandlerOptions{}]. *)
Definition zeroOptions : HandlerOptions :=
  {| AddSource := false; Level_opt := None; ReplaceAttr := None |}.

(** *** The [Handler] interface

    A handler acts on the buffers of the store.  [Handle] answers [None]
    when the call does not return, and otherwise the new store with the
    error returned ([None] for a nil error).  The [context.Context]
    argument of [Enabled] and [Handle] is not used by any handler here and
    is left out. *)
Class Handler (H : Type) : Type := {
  Enabled : H -> Level -> bool;
  WithAttrs : H -> list Attr -> H;
  WithGroup : H -> string -> H;
  Handle : H -> Record -> gmap loc string -> option (gmap loc string * option error)
}.

(** *** [JSONHandler] *)

(** What [WithGroup] and [WithAttrs] have bound to a handler, in the order
    of the calls. *)
Inductive groupOrAttrs : Type :=
| boundGroup (name : string)
| boundAttrs (l : list Attr).

Record JSONHandler : Type := mkJSONHandler {
  opts : HandlerOptions;
  w : loc;
  goas : list groupOrAttrs
}.

(** [slog.NewJSONHandler(w, opts)]. *)
Definition NewJSONHandler (w : loc) (opts : HandlerOptions) : JSONHandler :=
  {| opts := opts; w := w; goas := [] |}.

(** [appendJSONValue] for the kinds that reach it: a time in the layout
    [RFC3339Nano], a [Level] through its [MarshalJSON], which quotes
    [Level.String].  Groups and sources are taken apart by [appendAttr]
    before. *)
Definition jsonValue (v : Value) : json.value :=
  match v with
  | AnyNil => json.Null
  | AnyLevel l => json.Str (Level_String l)
  | StringValue s => json.Str s
  | Int64Value n => json.Num n
  | BoolValue b => json.Bool b
  | TimeValue t => json.Str (Format t RFC3339Nano)
  | AnySource _ | GroupValue _ => json.Null
  end.

(** [appendAttrs]: appends every attribute and reports whether one of them
    appended something. *)
Fixpoint appendAttrsWith (f : Attr -> option (bool * list (string * json.value)))
    (l : list Attr) : option (bool * list (string * json.value)) :=
  match l with
  | [] => Some (false, [])
  | a :: l =>
      '(b1, m1) ← f a;
      '(b2, m2) ← appendAttrsWith f l;
      Some (b1 || b2, m1 ++ m2)
  end.

Section appendAttr.

Variable rep : option ReplaceAttrFn.

(** [appendAttr]: the members an attribute adds to the object being
    written, and whether the call reports that it appended something.
    The rewrite hook is applied to every attribute that is not a group, a
    group with an empty key is inlined, and a group all of whose members
    were dropped is dropped.  A hook may answer with a group, whose
    members go through the hook again, so the nesting is not bounded by
    the attribute; [depth] bounds it, and [None] says that the bound was
    hit. *)
Fixpoint appendAttr (depth : nat) (groups : list string) (a : Attr)
  : option (bool * list (string * json.value)) :=
  match depth with
  | O => None
  | S depth =>
      let a :=
        match rep with
        | Some f => if isGroup (Val a) then a else f groups a
        | None => a
        end in
      if isEmpty a then Some (false, @nil (string * json.value))
      else
        let a :=
          match Val a with
          | AnySource src => mkAttr (Key a) (Source_group src)
          | _ => a
          end in
        match Val a with
        | GroupValue [] => Some (true, [])
        | GroupValue g =>
            let inline := String.eqb (Key a) "" in
            let groups' := if inline then groups else groups ++ [Key a] in
            match appendAttrsWith (appendAttr depth groups') g with
            | Some (true, ms) =>
                Some (true, if inline then ms else [(Key a, json.Obj ms)])
            | Some (false, _) => Some (false, [])
            | None => None
            end
        | v => Some (true, [(Key a, jsonValue v)])
        end
  end.

Definition appendAttrs (depth : nat) (groups : list string) (l : list Attr)
  : option (bool * list (string * json.value)) :=
  appendAttrsWith (appendAttr depth groups) l.

(** [appendNonBuiltIns]: the attributes bound by [WithAttrs] and those of
    the record, inside the groups opened by [WithGroup].  A group is
    written only when something was appended inside it. *)
Fixpoint nonBuiltIns (depth : nat) (groups : list string)
    (bound : list groupOrAttrs) (recordAttrs : list Attr)
  : option (bool * list (string * json.value)) :=
  match bound with
  | [] => appendAttrs depth groups recordAttrs
  | boundAttrs l :: bound =>
      '(b1, m1) ← appendAttrs depth groups l;
      '(b2, m2) ← nonBuiltIns depth groups bound recordAttrs;
      Some (b1 || b2, m1 ++ m2)
  | boundGroup name :: bound =>
      match nonBuiltIns depth (groups ++ [name]) bound recordAttrs with
      | Some (true, ms) => Some (true, [(name, json.Obj ms)])
      | Some (false, _) => Some (false, [])
      | None => None
      end
  end.

(** A built-in field: written directly when there is no hook, and through
    [appendAttr], with no group path, when there is one. *)
Definition builtIn (depth : nat) (key : string) (v : Value)
  : option (bool * list (string * json.value)) :=
  match rep with
  | None => Some (true, [(key, jsonValue v)])
  | Some _ => appendAttr depth [] (mkAttr key v)
  end.

End appendAttr.

(** The members of the object that [JSONHandler.Handle] writes for a
    record: time (unless zero), level, source (if asked for), message, then
    the other attributes. *)
Definition members (depth : nat) (h : JSONHandler) (r : Record)
  : option (list (string * json.value)) :=
  let rep := ReplaceAttr (opts h) in
  '(_, t) ← (if Time_IsZero (Time_ r) then Some (false, [])
            else builtIn rep depth TimeKey (TimeValue (Time_ r)));
  '(_, l) ← builtIn rep depth LevelKey (AnyLevel (Level_ r));
  '(_, s) ← (if AddSource (opts h)
            then appendAttr rep depth [] (mkAttr SourceKey (AnySource (source r)))
            else Some (false, []));
  '(_, m) ← builtIn rep depth MessageKey (StringValue (Message r));
  '(_, n) ← nonBuiltIns rep depth [] (goas h) (Attrs r);
  Some (t ++ l ++ s ++ m ++ n).

Definition JSONHandler_Enabled (h : JSONHandler) (l : Level) : bool :=
  default LevelInfo (Level_opt (opts h)) <=? l.

(** [countEmptyGroups(as) == len(as)]. *)
Definition allEmptyGroups (l : list Attr) : bool :=
  forallb (fun a => match Val a with GroupValue [] => true | _ => false end) l.

Definition JSONHandler_WithAttrs (h : JSONHandler) (l : list Attr) : JSONHandler :=
  if allEmptyGroups l then h
  else {| opts := opts h; w := w h; goas := goas h ++ [boundAttrs l] |}.

Definition JSONHandler_WithGroup (h : JSONHandler) (name : string) : JSONHandler :=
  {| opts := opts h; w := w h; goas := goas h ++ [boundGroup name] |}.

(** [JSONHandler.Handle]: one line holding one object is written to [w] in
    a single [Write], which on a [bytes.Buffer] does not fail. *)
Definition JSONHandler_Handle (depth : nat) (h : JSONHandler) (r : Record)
    (bufs : gmap loc string) : option (gmap loc string * option error) :=
  ms ← members depth h r;
  Some (bytes.Write bufs (w h) (json.compact (json.Obj ms) +:+ json.newline), None).

(** The interface as [JSONHandler] implements it, for a stack that allows
    attribute groups nested [depth] deep. *)
Definition JSONHandler_Handler (depth : nat) : Handler JSONHandler := {|
  Enabled := JSONHandler_Enabled;
  WithAttrs := JSONHandler_WithAttrs;
  WithGroup := JSONHandler_WithGroup;
  Handle := JSONHandler_Handle depth
|}.

End slog.

(** ** The world the handler acts on *)

(** The buffers and mutexes of the store, the lines printed on standard
    output and standard error, the lines appended to [./logs.log], the
    state of the standard logger of package [log], and the error, if any,
    with which the operating system answers an attempt to open the log
    file.  A line written through package [log] is recorded without the
    date, time and call site that the logger puts in front of it. *)
Record World : Type := mkWorld {
  bufs : gmap loc string;
  mutexes : gmap loc bool;
  stdout : list string;
  stderr : list string;
  logFile : list string;
  logOutput : option string;
  logFlags : Z;
  openError : option error
}.

Definition setBufs (bs : gmap loc string) (wd : World) : World :=
  mkWorld bs (mutexes wd) (stdout wd) (stderr wd) (logFile wd)
          (logOutput wd) (logFlags wd) (openError wd).

Definition setMutexes (ms : gmap loc bool) (wd : World) : World :=
  mkWorld (bufs wd) ms (stdout wd) (stderr wd) (logFile wd)
          (logOutput wd) (logFlags wd) (openError wd).

(** Whether a mutex is locked. *)
Definition held (m : loc) (wd : World) : bool := default false (mutexes wd !! m).

(** [m.Lock()]: [None] when the mutex is held, in which case the caller
    waits. *)
Definition Lock (m : loc) (wd : World) : option World :=
  if held m wd then None
  else Some (setMutexes (<[m := true]> (mutexes wd)) wd).

(** [m.Unlock()]. *)
Definition Unlock (m : loc) (wd : World) : World :=
  setMutexes (<[m := false]> (mutexes wd)) wd.

(** [fmt.Println(s)]. *)
Definition Println (s : string) (wd : World) : World :=
  mkWorld (bufs wd) (mutexes wd) (stdout wd ++ [s]) (stderr wd) (logFile wd)
          (logOutput wd) (logFlags wd) (openError wd).

Module log.

Definition Ldate : Z := 1.
Definition Ltime : Z := 2.
Definition Lmicroseconds : Z := 4.
Definition Lshortfile : Z := 16.
Definition LstdFlags : Z := Z.lor Ldate Ltime.

(** [log.SetOutput(file)], with the file named by its path. *)
Definition SetOutput (file : string) (wd : World) : World :=
  mkWorld (bufs wd) (mutexes wd) (stdout wd) (stderr wd) (logFile wd)
          (Some file) (logFlags wd) (openError wd).

(** [log.SetFlags(flags)]. *)
Definition SetFlags (flags : Z) (wd : World) : World :=
  mkWorld (bufs wd) (mutexes wd) (stdout wd) (stderr wd) (logFile wd)
          (logOutput wd) flags (openError wd).

(** [log.Println(s)]: one line to the output of the standard logger,
    which is standard error until [SetOutput] is called. *)
Definition Println (s : string) (wd : World) : World :=
  match logOutput wd with
  | None =>
      mkWorld (bufs wd) (mutexes wd) (stdout wd) (stderr wd ++ [s]) (logFile wd)
              (logOutput wd) (logFlags wd) (openError wd)
  | Some _ =>
      mkWorld (bufs wd) (mutexes wd) (stdout wd) (stderr wd) (logFile wd ++ [s])
              (logOutput wd) (logFlags wd) (openError wd)
  end.

End log.

(** How a call of [Handle] ends: it returns an error or nil, the process
    exits (after [log.Fatal]), or the call does not return. *)
Inductive outcome : Type :=
| returns (err : option error)
| exits (code : Z)
| noReturn.

(** * Package [flarelog] *)

Module flarelog.
Import slog.

(** ** Constants of [main.go] *)

Definition timeFormat : string := "[15:04:05.000]".

Definition ESC : ascii := "027"%char.

Definition reset : string := String ESC "[0m".

Definition black : Z := 30.
Definition red : Z := 31.
Definition green : Z := 32.
Definition yellow : Z := 33.
Definition blue : Z := 34.
Definition magenta : Z := 35.
Definition cyan : Z := 36.
Definition lightGray : Z := 37.
Definition darkGray : Z := 90.
Definition lightRed : Z := 91.
Definition lightGreen : Z := 92.
Definition lightYellow : Z := 93.
Definition lightBlue : Z := 94.
Definition lightMagenta : Z := 95.
Definition lightCyan : Z := 96.
Definition white : Z := 97.

(** [colorize]: [fmt.Sprintf("\033[%sm%s%s", strconv.Itoa(colorCode), v, reset)]. *)
Definition colorize (colorCode : Z) (v : string) : string :=
  String ESC "[" +:+ Itoa colorCode +:+ "m" +:+ v +:+ reset.

(** ** The handler *)

(** [type Handler struct]: the delegate [h], the rewrite hook [r] (nil is
    [None]), and the addresses of the buffer [b] and of the mutex [m]. *)
Record Handler (H : Type) : Type := mkHandler {
  h : H;
  r : option ReplaceAttrFn;
  b : loc;
  m : loc
}.
Arguments mkHandler {H} h r b m.
Arguments h {H} _.
Arguments r {H} _.
Arguments b {H} _.
Arguments m {H} _.

Section Methods.

Context {H : Type} `{!slog.Handler H}.

Definition Enabled (this : Handler H) (level : Level) : bool :=
  slog.Enabled (h this) level.

Definition WithAttrs (this : Handler H) (attrs : list Attr) : Handler H :=
  {| h := slog.WithAttrs (h this) attrs; b := b this; r := r this; m := m this |}.

Definition WithGroup (this : Handler H) (name : string) : Handler H :=
  {| h := slog.WithGroup (h this) name; b := b this; r := r this; m := m this |}.

(** The deferred function of [computeAttrs]: reset the buffer, then
    unlock. *)
Definition resetAndUnlock (this : Handler H) (wd : World) : World :=
  Unlock (m this) (setBufs (bytes.Reset (bufs wd) (b this)) wd).

(** [computeAttrs]: [None] when the call does not return, because the
    mutex is held or because the delegate does not return. *)
Definition computeAttrs (this : Handler H) (rec : Record) (wd : World)
  : option (World * result json.Map) :=
  wd ← Lock (m this) wd;
  match slog.Handle (h this) rec (bufs wd) with
  | None => None
  | Some (bs, Some err) =>
      Some (resetAndUnlock this (setBufs bs wd),
            Err (Errorf "error when calling inner handler's Handle: " err))
  | Some (bs, None) =>
      let wd := setBufs bs wd in
      match json.Unmarshal (bytes.Bytes (bufs wd) (b this)) with
      | Err err =>
          Some (resetAndUnlock this wd,
                Err (Errorf "error when unmarshaling inner handler's Handle result: " err))
      | Ok attrs => Some (resetAndUnlock this wd, Ok attrs)
      end
  end.

(** The rewrite hook, when there is one, applied to a top-level field
    with the empty group path: [if h.r != nil { a = h.r([]string{}, a) }]. *)
Definition rewrite (this : Handler H) (a : Attr) : Attr :=
  match r this with
  | Some f => f [] a
  | None => a
  end.

(** The colour of the level text, lines 102 to 114 of [Handle]: a chain
    of tests without a final [else], which leaves the text as it is. *)
Definition levelStyle (l : Level) (level : string) : string :=
  if l <=? LevelDebug then colorize lightGray level
  else if l <=? LevelInfo then colorize cyan level
  else if l <? LevelWarn then colorize lightBlue level
  else if l <? LevelError then colorize yellow level
  else if l <=? LevelError + 1 then colorize lightRed level
  else if l >? LevelError + 1 then colorize lightMagenta level
  else level.

(** The local variables of [Handle] when it reaches the call of
    [computeAttrs]. *)
Record fields : Type := mkFields {
  level : string;
  timestamp : string;
  msg : string;
  outForLog : string
}.

(** Lines 85 to 144 of [Handle]. *)
Definition renderFields (this : Handler H) (rec : Record) : fields :=
  let outForLog := "" in
  let level := "" in
  let levelAttr := rewrite this (mkAttr LevelKey (AnyLevel (Level_ rec))) in
  let '(level, outForLog) :=
    if negb (Attr_Equal levelAttr emptyAttr) then
      let level := Value_String (Val levelAttr) +:+ ":" in
      let outForLog := outForLog +:+ level in
      let outForLog := outForLog +:+ " " in
      (levelStyle (Level_ rec) level, outForLog)
    else (level, outForLog) in
  let timestamp := "" in
  let timeAttr :=
    rewrite this (mkAttr TimeKey (StringValue (Format (Time_ rec) timeFormat))) in
  let outForLog := outForLog +:+ timestamp in
  let outForLog := outForLog +:+ " " in
  let timestamp :=
    if negb (Attr_Equal timeAttr emptyAttr)
    then colorize lightGray (Value_String (Val timeAttr))
    else timestamp in
  let msg := "" in
  let msgAttr := rewrite this (mkAttr MessageKey (StringValue (Message rec))) in
  let outForLog := outForLog +:+ Value_String (Val msgAttr) in
  let outForLog := outForLog +:+ " " in
  let msg :=
    if negb (Attr_Equal msgAttr emptyAttr)
    then colorize white (Value_String (Val msgAttr))
    else msg in
  {| level := level; timestamp := timestamp; msg := msg; outForLog := outForLog |}.

(** Lines 155 to 171 of [Handle]: the styled line and the finished plain
    line, from the fields and the marshalled attributes. *)
Definition composeLines (f : fields) (bytes : string) : string * string :=
  let styledOut := "" in
  let styledOut :=
    if (0 <? String.length (timestamp f))%nat
    then (styledOut +:+ timestamp f) +:+ " " else styledOut in
  let styledOut :=
    if (0 <? String.length (level f))%nat
    then (styledOut +:+ level f) +:+ " " else styledOut in
  let styledOut :=
    if (0 <? String.length (msg f))%nat
    then (styledOut +:+ msg f) +:+ " " else styledOut in
  if (0 <? String.length bytes)%nat
  then (styledOut +:+ colorize darkGray bytes, outForLog f +:+ bytes)
  else (styledOut, outForLog f).

(** [openLogFile(path)]: the file, named by its path, or the error of
    [os.OpenFile]. *)
Definition openLogFile (path : string) (wd : World) : result string :=
  match openError wd with
  | Some err => Err err
  | None => Ok path
  end.

(** [log.Fatal(err)]: the error is written through the standard logger
    and the process exits with status 1. *)
Definition Fatal (err : error) (wd : World) : World * outcome :=
  (log.Println (Error err) wd, exits 1).

(** [Handle]. *)
Definition Handle (this : Handler H) (rec : Record) (wd : World)
  : World * outcome :=
  let f := renderFields this rec in
  match computeAttrs this rec wd with
  | None => (wd, noReturn)
  | Some (wd, Err err) => (wd, returns (Some err))
  | Some (wd, Ok attrs) =>
      match json.MarshalIndent attrs with
      | Err err => (wd, returns (Some (Errorf "error when marshaling attrs: " err)))
      | Ok bytes =>
          let '(styledOut, outForLog) := composeLines f bytes in
          let wd := Println styledOut wd in
          match openLogFile "./logs.log" wd with
          | Err err => Fatal err wd
          | Ok file =>
              let wd := log.SetOutput file wd in
              let wd :=
                log.SetFlags
                  (Z.lor (Z.lor log.LstdFlags log.Lshortfile) log.Lmicroseconds) wd in
              let wd := log.Println outForLog wd in
              (wd, returns None)
          end
      end
  end.

End Methods.

(** [suppressDefaults]. *)
Definition suppressDefaults (next : option ReplaceAttrFn) : ReplaceAttrFn :=
  fun groups a =>
    if String.eqb (Key a) TimeKey
       || String.eqb (Key a) LevelKey
       || String.eqb (Key a) MessageKey
    then emptyAttr
    else match next with
         | None => a
         | Some f => f groups a
         end.

(** [&bytes.Buffer{}] and [&sync.Mutex{}]: a fresh address holding an
    empty buffer, an unlocked mutex. *)
Definition newBuffer (wd : World) : loc * World :=
  let b := fresh (dom (bufs wd)) in (b, setBufs (<[b := ""]> (bufs wd)) wd).

Definition newMutex (wd : World) : loc * World :=
  let m := fresh (dom (mutexes wd)) in (m, setMutexes (<[m := false]> (mutexes wd)) wd).

(** [NewHandler]; a nil [opts] is [None]. *)
Definition NewHandler (opts : option HandlerOptions) (wd : World)
  : Handler JSONHandler * World :=
  let opts := match opts with None => zeroOptions | Some o => o end in
  let '(b, wd) := newBuffer wd in
  let '(m, wd) := newMutex wd in
  ({| b := b;
      h := NewJSONHandler b
             {| Level_opt := Level_opt opts;
                AddSource := AddSource opts;
                ReplaceAttr := Some (suppressDefaults (ReplaceAttr opts)) |};
      r := ReplaceAttr opts;
      m := m |}, wd).

End flarelog.

(** * Package [main]: the demonstration program *)

Module main.
Import slog.

(** What a logging call reads from its environment: the clock and the
    call site. *)
Record call : Type := mkCall { now : Time; pc : Source }.

(** [Logger.log] of [log/slog], for a logger made by [slog.New] from a
    [*flarelog.Handler] and a call without arguments after the message:
    when the handler is enabled for the level, a record is made and
    handled, and the error that [Handle] returns is dropped. *)
Definition Logger_log {H : Type} `{!slog.Handler H}
    (l : flarelog.Handler H) (level : Level) (msg : string) (c : call)
    (wd : World) : World * outcome :=
  if flarelog.Enabled l level then
    match flarelog.Handle l (mkRecord (now c) msg level (pc c) []) wd with
    | (wd, returns _) => (wd, returns None)
    | stop => stop
    end
  else (wd, returns None).

(** One statement after another: the second runs when the first has
    returned. *)
Definition andThen (first : World * outcome) (second : World -> World * outcome)
  : World * outcome :=
  match first with
  | (wd, returns _) => second wd
  | stop => stop
  end.

(** [test1], with the readings of its four logging calls. *)
Definition test1 (depth : nat) (c1 c2 c3 c4 : call) (wd : World) : World * outcome :=
  let opts :=
    {| Level_opt := Some LevelDebug; AddSource := true; ReplaceAttr := None |} in
  let '(logger, wd) := flarelog.NewHandler (Some opts) wd in
  let impl := JSONHandler_Handler depth in
  andThen (Logger_log logger LevelInfo "Info Level Log" c1 wd) (fun wd =>
  andThen (Logger_log logger LevelDebug "This is a debug message" c2 wd) (fun wd =>
  andThen (Logger_log logger LevelWarn "This is a warn message" c3 wd) (fun wd =>
  Logger_log logger LevelError "This is an error message" c4 wd))).

Definition main : nat -> call -> call -> call -> call -> World -> World * outcome :=
  test1.

End main.

(** * Definitions used to state the properties *)

Import slog.
Import json.

(** ** The colour bands as the specification tabulates them

    Each row is a condition on the level and a colour; the rows are tried
    from the first to the last and the first whose condition holds gives
    the colour. *)
Definition colorTable : list ((Level -> bool) * Z) :=
  [ (fun l => l <=? LevelDebug, flarelog.lightGray);
    (fun l => l <=? LevelInfo, flarelog.cyan);
    (fun l => l <? LevelWarn, flarelog.lightBlue);
    (fun l => l <? LevelError, flarelog.yellow);
    (fun l => l <=? LevelError + 1, flarelog.lightRed);
    (fun l => l >? LevelError + 1, flarelog.lightMagenta) ].

Fixpoint firstRow (table : list ((Level -> bool) * Z)) (l : Level) : option Z :=
  match table with
  | [] => None
  | (cond, color) :: table => if cond l then Some color else firstRow table l
  end.

Definition bandColor (l : Level) : option Z := firstRow colorTable l.

(** ** Calls of [computeAttrs] running concurrently

    Any number of goroutines call [computeAttrs] on handlers that share the
    buffer [b] and the mutex [m].  Each call is at one of the statements of
    the function: the [Lock], the delegate's [Handle], the [Unmarshal], and
    the two statements of the deferred function, [Reset] and [Unlock].  A
    step runs one statement of one call; the rest of the program may print
    and write files but leaves the buffers and mutexes alone. *)
Module concurrent.

Inductive pc : Type := atLock | atHandle | atUnmarshal | atReset | atUnlock.

#[global] Instance pc_eq_dec : EqDecision pc.
Proof. solve_decision. Defined.

Record state : Type := mkState {
  world : World;
  calls : gmap nat pc
}.

Section Steps.

Context {H : Type} `{!slog.Handler H}.
Variables (b m : loc).

Inductive step : state -> state -> Prop :=
| step_call t wd cs :
    cs !! t = None ->
    step (mkState wd cs) (mkState wd (<[t := atLock]> cs))
| step_Lock t wd wd' cs :
    cs !! t = Some atLock ->
    Lock m wd = Some wd' ->
    step (mkState wd cs) (mkState wd' (<[t := atHandle]> cs))
| step_Handle t (d : H) rec wd bs cs :
    cs !! t = Some atHandle ->
    slog.Handle d rec (bufs wd) = Some (bs, None) ->
    step (mkState wd cs) (mkState (setBufs bs wd) (<[t := atUnmarshal]> cs))
| step_Handle_error t (d : H) rec err wd bs cs :
    cs !! t = Some atHandle ->
    slog.Handle d rec (bufs wd) = Some (bs, Some err) ->
    step (mkState wd cs) (mkState (setBufs bs wd) (<[t := atReset]> cs))
| step_Unmarshal t wd cs :
    cs !! t = Some atUnmarshal ->
    step (mkState wd cs) (mkState wd (<[t := atReset]> cs))
| step_Reset t wd cs :
    cs !! t = Some atReset ->
    step (mkState wd cs)
         (mkState (setBufs (bytes.Reset (bufs wd) b) wd) (<[t := atUnlock]> cs))
| step_Unlock t wd cs :
    cs !! t = Some atUnlock ->
    step (mkState wd cs) (mkState (Unlock m wd) (delete t cs))
| step_elsewhere wd wd' cs :
    bufs wd' = bufs wd ->
    mutexes wd' = mutexes wd ->
    step (mkState wd cs) (mkState wd' cs).

(** At the start no call is running, the mutex is free and the buffer is
    empty, as [NewHandler] leaves them. *)
Definition initial (s : state) : Prop :=
  calls s = ∅ /\ held m (world s) = false /\ bytes.Bytes (bufs (world s)) b = "".

Definition reachable (s : state) : Prop :=
  exists s0, initial s0 /\ rtc step s0 s.

(** A call is inside the critical section from the moment [Lock] has
    returned. *)
Definition inside (p : pc) : Prop := p <> atLock.

Definition invariant (s : state) : Prop :=
  (forall t p, calls s !! t = Some p -> inside p -> held m (world s) = true)
  /\ (forall t t' p p',
        calls s !! t = Some p -> calls s !! t' = Some p' ->
        inside p -> inside p' -> t = t')
  /\ (held m (world s) = false -> bytes.Bytes (bufs (world s)) b = "")
  /\ (forall t, calls s !! t = Some atUnlock -> bytes.Bytes (bufs (world s)) b = "").

End Steps.

End concurrent.

(** ** The three ways in which [Handle] fails

    The delegate returns an error, the buffer does not hold JSON for a
    map, or the map cannot be marshalled.  Each error wraps its cause with
    a text that names the stage. *)
Inductive failure {H : Type} `{!slog.Handler H}
    (this : flarelog.Handler H) (rec : Record) (wd : World) : error -> Prop :=
| delegateFails wd1 bs e :
    Lock (flarelog.m this) wd = Some wd1 ->
    slog.Handle (flarelog.h this) rec (bufs wd1) = Some (bs, Some e) ->
    failure this rec wd (Errorf "error when calling inner handler's Handle: " e)
| unmarshalFails wd1 bs e :
    Lock (flarelog.m this) wd = Some wd1 ->
    slog.Handle (flarelog.h this) rec (bufs wd1) = Some (bs, None) ->
    json.Unmarshal (bytes.Bytes bs (flarelog.b this)) = Err e ->
    failure this rec wd
      (Errorf "error when unmarshaling inner handler's Handle result: " e)
| marshalFails wd1 bs attrs e :
    Lock (flarelog.m this) wd = Some wd1 ->
    slog.Handle (flarelog.h this) rec (bufs wd1) = Some (bs, None) ->
    json.Unmarshal (bytes.Bytes bs (flarelog.b this)) = Ok attrs ->
    json.MarshalIndent attrs = Err e ->
    failure this rec wd (Errorf "error when marshaling attrs: " e).

(** ** Sample inputs *)

(** A delegate, named by the buffer it writes to, that writes text which
    is not JSON. *)
Definition garbling : slog.Handler loc := {|
  slog.Enabled := fun _ _ => true;
  slog.WithAttrs := fun d _ => d;
  slog.WithGroup := fun d _ => d;
  slog.Handle := fun d _ bs => Some (bytes.Write bs d "level=INFO", None)
|}.

Definition garblingHandler : flarelog.Handler loc :=
  {| flarelog.h := 0%nat; flarelog.r := None; flarelog.b := 0%nat; flarelog.m := 0%nat |}.

(** A world in which nothing has happened yet and the log file can be
    opened. *)
Definition sampleWorld : World :=
  {| bufs := ∅; mutexes := ∅; stdout := []; stderr := []; logFile := [];
     logOutput := None; logFlags := log.LstdFlags; openError := None |}.

Definition sampleTime : Time :=
  {| wall := 63900000000;
     Format := fun layout =>
       if String.eqb layout flarelog.timeFormat then "[12:34:56.789]"
       else "2025-11-02T12:34:56.789Z" |}.

Definition sampleSource : Source :=
  {| Function := "main.test1"; File := "/app/main.go"; Line := 17 |}.

(** The record of [logger.Info("Info Level Log")]. *)
Definition sampleRecord : Record :=
  {| Time_ := sampleTime; Message := "Info Level Log"; Level_ := LevelInfo;
     source := sampleSource; Attrs := [] |}.

(** [NewHandler(nil)] in the sample world. *)
Definition sampleHandler : flarelog.Handler JSONHandler :=
  fst (flarelog.NewHandler None sampleWorld).

Definition sampleStart : World := snd (flarelog.NewHandler None sampleWorld).

(** A rewrite hook that suppresses the fields and attributes with the given
    keys and keeps the others. *)
Definition suppress (keys : list string) : ReplaceAttrFn :=
  fun _ a => if existsb (String.eqb (Key a)) keys then emptyAttr else a.

(** The options of a caller who suppresses the message through the rewrite
    hook. *)
Definition messageDropped : HandlerOptions :=
  {| AddSource := false; Level_opt := None;
     ReplaceAttr := Some (suppress [MessageKey]) |}.

(** The record of [logger.Error("request failed", "code", 500)]. *)
Definition failedRecord : Record :=
  {| Time_ := sampleTime; Message := "request failed"; Level_ := LevelError;
     source := sampleSource; Attrs := [mkAttr "code" (Int64Value 500)] |}.

(** ** The keys of the well-known fields *)

Definition wellKnown (k : string) : bool :=
  String.eqb k TimeKey || String.eqb k LevelKey || String.eqb k MessageKey.





(** Groups are not shown to the rewrite hook.  An attribute is quiet when
    it cannot, behind the back of the hook, put a member named by a
    well-known key beside the built-in fields: it is not a group named by a
    well-known key, and if it is a group with the empty key, whose members
    are written in its place, its members are quiet.  An attribute that is
    not a group is shown to the hook and is quiet. *)
Fixpoint quietValue (k : string) (v : Value) : bool :=
  match v with
  | GroupValue g =>
      if String.eqb k ""
      then (fix all (g : list Attr) : bool :=
              match g with
              | [] => true
              | mkAttr k' x :: g => quietValue k' x && all g
              end) g
      else negb (wellKnown k)
  | _ => true
  end.

Definition quiet (a : Attr) : bool := quietValue (Key a) (Val a).

(** A caller's hook, if there is one, that keeps clear of the well-known
    keys: for an attribute that the wrapped hook passes on to it, one that
    is not a group and whose key is not well-known, it answers with an
    attribute whose key is not well-known either, and which is quiet if it
    is a group. *)
Definition keepsClear (next : option ReplaceAttrFn) : Prop :=
  match next with
  | None => True
  | Some f =>
      forall groups a,
        wellKnown (Key a) = false -> isGroup (Val a) = false ->
        wellKnown (Key (f groups a)) = false /\ quiet (f groups a) = true
  end.






(** The members [JSONHandler.Handle] writes besides the three built-in
    fields: the source, if asked for, and the other attributes. *)
Definition otherMembers (depth : nat) (hd : JSONHandler) (rec : Record)
  : option (list (string * json.value)) :=
  let rep := ReplaceAttr (opts hd) in
  '(_, s) ← (if AddSource (opts hd)
            then appendAttr rep depth [] (mkAttr SourceKey (AnySource (source rec)))
            else Some (false, []));
  '(_, n) ← nonBuiltIns rep depth [] (goas hd) (Attrs rec);
  Some (s ++ n).

(** ** Reading back what the JSON handler writes *)

(** A text after which a number ends. *)
Definition delimited (rest : string) : bool :=
  match rest with
  | String c _ =>
      match digitVal c with Some _ => false | None => true end && endsNumber rest
  | EmptyString => true
  end.

(** The number whose decimal digits are those of [acc] followed by [u]. *)
Fixpoint digitsValue (acc : Z) (u : uint) : Z :=
  match u with
  | Nil => acc
  | D0 u => digitsValue (acc * 10 + 0) u
  | D1 u => digitsValue (acc * 10 + 1) u
  | D2 u => digitsValue (acc * 10 + 2) u
  | D3 u => digitsValue (acc * 10 + 3) u
  | D4 u => digitsValue (acc * 10 + 4) u
  | D5 u => digitsValue (acc * 10 + 5) u
  | D6 u => digitsValue (acc * 10 + 6) u
  | D7 u => digitsValue (acc * 10 + 7) u
  | D8 u => digitsValue (acc * 10 + 8) u
  | D9 u => digitsValue (acc * 10 + 9) u
  end.

(** The number of nested calls the parser makes for a value. *)
Fixpoint nodes (v : value) : nat :=
  match v with
  | Arr l => S (list_sum (List.map (fun x => S (nodes x)) l))
  | Obj m => S (list_sum (List.map (fun kx => S (nodes (snd kx))) m))
  | _ => 1
  end.

(** The first byte of a value: not white space and not a separator. *)
Definition startsValue (s : string) : Prop :=
  exists c r, s = String c r /\ isSpace c = false
              /\ Ascii.eqb c "]" = false /\ Ascii.eqb c "}" = false.

(** The parser reads a value back from its compact text, given fuel for
    its nested calls and a text after the value at which a number ends. *)
Definition readsBack (x : value) : Prop :=
  forall fuel rest,
    (nodes x <= fuel)%nat -> delimited rest = true ->
    parseValue fuel (compact x +:+ rest) = Some (x, rest).

(** ** Definitions for the further properties *)

(** A handler is ready for a call: its mutex is free and its buffer is
    empty. *)
Definition ready {H : Type} (this : flarelog.Handler H) (wd : World) : Prop :=
  held (flarelog.m this) wd = false
  /\ bytes.Bytes (bufs wd) (flarelog.b this) = "".

(** The world of [sampleStart] when the log file cannot be opened. *)
Definition lockedOut : World :=
  {| bufs := bufs sampleStart; mutexes := mutexes sampleStart;
     stdout := stdout sampleStart; stderr := stderr sampleStart;
     logFile := logFile sampleStart; logOutput := logOutput sampleStart;
     logFlags := logFlags sampleStart;
     openError := Some (errorString "open ./logs.log: permission denied") |}.

(** A step of deriving a handler, and the handler derived by a sequence of
    calls of [WithAttrs] and [WithGroup]. *)
Inductive derivation : Type :=
| bindAttrs (attrs : list Attr)
| scopeGroup (name : string).

Definition derive {H : Type} `{!slog.Handler H}
    (this : flarelog.Handler H) (steps : list derivation) : flarelog.Handler H :=
  fold_left
    (fun hd step =>
       match step with
       | bindAttrs attrs => flarelog.WithAttrs hd attrs
       | scopeGroup name => flarelog.WithGroup hd name
       end)
    steps this.

(** A field of the styled line: nothing when the rewrite hook answered
    with the empty attribute, and else the styled text and a space. *)
Definition shown (a : Attr) (styled : string) : string :=
  if Attr_Equal a emptyAttr then "" else styled +:+ " ".

(** A record with other attributes. *)
Definition setAttrs (rec : Record) (attrs : list Attr) : Record :=
  {| Time_ := Time_ rec; Message := Message rec; Level_ := Level_ rec;
     source := source rec; Attrs := attrs |}.

(** An attribute that the wrapped hook lets through: a group, or an
    attribute whose key is not one of the well-known keys. *)
Definition passes (a : Attr) : bool :=
  isGroup (Val a) || negb (wellKnown (Key a)).

(** A caller's hook, if there is one, that only filters: it answers with
    the attribute it was given or with the empty attribute. *)
Definition filtering (next : option ReplaceAttrFn) : Prop :=
  match next with
  | None => True
  | Some f => forall groups a, f groups a = a \/ f groups a = emptyAttr
  end.





(** A text without the byte ESC, which starts every colour code. *)
Fixpoint plain (s : string) : bool :=
  match s with
  | EmptyString => true
  | String c s => negb (Ascii.eqb c flarelog.ESC) && plain s
  end.






(** ** Definitions for the demonstration program *)

(** The options that [test1] passes to [NewHandler]. *)
Definition demoOptions : HandlerOptions :=
  {| Level_opt := Some LevelDebug; AddSource := true; ReplaceAttr := None |}.

(** A call site as the runtime reports it: function, file and line are
    set. *)
Definition realSite (c : main.call) : Prop :=
  Function (main.pc c) <> "" /\ File (main.pc c) <> "" /\ Line (main.pc c) <> 0.

(** A reading of the clock and a call site. *)
Definition sampleCall : main.call := main.mkCall sampleTime sampleSource.

(** The marshalled attributes of a record that carries its call site and
    nothing else. *)
Definition siteJSON (s : Source) : string :=
  "{" +:+ newline
  +:+ "  " +:+ quote true true "source" +:+ ": " +:+ "{" +:+ newline
  +:+ "    " +:+ quote true true "file" +:+ ": " +:+ quote true true (File s)
  +:+ "," +:+ newline
  +:+ "    " +:+ quote true true "function" +:+ ": " +:+ quote true true (Function s)
  +:+ "," +:+ newline
  +:+ "    " +:+ quote true true "line" +:+ ": " +:+ Itoa (Line s) +:+ newline
  +:+ "  " +:+ "}" +:+ newline +:+ "}".

(** The two lines of such a record. *)
Definition styledLine (color : Z) (levelText msg : string) (c : main.call) : string :=
  flarelog.colorize flarelog.lightGray (Format (main.now c) flarelog.timeFormat)
  +:+ " " +:+ flarelog.colorize color levelText
  +:+ " " +:+ flarelog.colorize flarelog.white msg
  +:+ " " +:+ flarelog.colorize flarelog.darkGray (siteJSON (main.pc c)).

Definition plainLine (levelText msg : string) (c : main.call) : string :=
  levelText +:+ " " +:+ " " +:+ msg +:+ " " +:+ siteJSON (main.pc c).

(** * Properties *)

(** ** Colour bands *)

Lemma bandColor_total (l : Level) : is_Some (bandColor l).
Proof.
  unfold bandColor, colorTable, firstRow.
  repeat (case_match; [eexists; reflexivity|]).
  lia.
Qed.

Lemma levelStyle_bandColor (l : Level) (text : string) :
  exists c, bandColor l = Some c /\ flarelog.levelStyle l text = flarelog.colorize c text.
Proof.
  unfold bandColor, colorTable, firstRow, flarelog.levelStyle.
  repeat (case_match; [eexists; split; reflexivity|]).
  lia.
Qed.


(** ** The buffer and the mutex *)

Lemma Lock_Some (m : loc) (wd wd' : World) :
  Lock m wd = Some wd' ->
  held m wd = false /\ held m wd' = true /\ bufs wd' = bufs wd.
Proof.
  unfold Lock. destruct (held m wd) eqn:Hm; [discriminate|].
  intros [= <-]. unfold held. cbn. rewrite lookup_insert_eq. auto.
Qed.

Lemma held_Unlock (m : loc) (wd : World) : held m (Unlock m wd) = false.
Proof. unfold held, Unlock. cbn. by rewrite lookup_insert_eq. Qed.

Lemma Bytes_Reset (bs : gmap loc string) (b : loc) :
  bytes.Bytes (bytes.Reset bs b) b = "".
Proof. unfold bytes.Bytes, bytes.Reset. by rewrite lookup_insert_eq. Qed.

Lemma resetAndUnlock_spec {H : Type} (this : flarelog.Handler H) (wd : World) :
  bytes.Bytes (bufs (flarelog.resetAndUnlock this wd)) (flarelog.b this) = ""
  /\ held (flarelog.m this) (flarelog.resetAndUnlock this wd) = false.
Proof.
  unfold flarelog.resetAndUnlock. split.
  - cbn. apply Bytes_Reset.
  - apply held_Unlock.
Qed.

(** Every exit path of [computeAttrs] goes through the deferred function. *)
Lemma computeAttrs_exit {H : Type} `{!slog.Handler H}
    (this : flarelog.Handler H) (rec : Record) (wd wd' : World)
    (res : result json.Map) :
  flarelog.computeAttrs this rec wd = Some (wd', res) ->
  exists wd1 bs e,
    Lock (flarelog.m this) wd = Some wd1
    /\ slog.Handle (flarelog.h this) rec (bufs wd1) = Some (bs, e)
    /\ wd' = flarelog.resetAndUnlock this (setBufs bs wd1).
Proof.
  unfold flarelog.computeAttrs.
  destruct (Lock (flarelog.m this) wd) as [wd1|] eqn:HL; [|discriminate].
  cbn.
  destruct (slog.Handle (flarelog.h this) rec (bufs wd1)) as [[bs [err|]]|] eqn:HH;
    [| |discriminate].
  - intros [= <- <-]. eauto 6.
  - destruct (json.Unmarshal _); intros [= <- <-]; eauto 6.
Qed.

Section Interleaving.

Context {H : Type} `{!slog.Handler H}.
Variables (b m : loc).

Import concurrent.

Lemma invariant_initial (s : state) : initial b m s -> invariant b m s.
Proof.
  intros (Hc & Hm & Hb). unfold invariant. rewrite Hc.
  repeat split; intros; try done; by rewrite ?lookup_empty in *.
Qed.

(** When the one call inside the critical section moves on, it is still
the only one inside. *)
Lemma moved_alone (cs : gmap nat pc) (t t1 : nat) (p p' q : pc) :
  (forall t t' p p',
      cs !! t = Some p -> cs !! t' = Some p' -> inside p -> inside p' -> t = t') ->
  cs !! t = Some p -> inside p ->
  <[t := p']> cs !! t1 = Some q -> inside q ->
  t1 = t.
Proof.
  intros Hone Ht Hp Ht1 Hq. destruct (decide (t = t1)) as [|Hne]; [done|].
  rewrite lookup_insert_ne in Ht1 by done. by eapply Hone.
Qed.

(** The cases of a call that moves on inside the critical section. *)
Ltac moved Hheld Hone Ht t0 :=
  repeat split;
  [ intros; eapply Hheld; [exact Ht|done]
  | intros t1 t2 p1 p2 H1 H2 Hi1 Hi2;
    transitivity t0;
    [ eapply (moved_alone _ _ _ _ _ _ Hone Ht); [done|exact H1|exact Hi1]
    | symmetry; eapply (moved_alone _ _ _ _ _ _ Hone Ht); [done|exact H2|exact Hi2] ]
  | ..].

Lemma invariant_step (s s' : state) :
  invariant b m s -> step b m s s' -> invariant b m s'.
Proof.
  intros (Hheld & Hone & Hfree & Hunl) Hstep. unfold invariant in *.
  destruct Hstep as
    [t0 wd cs Ht | t0 wd wd' cs Ht HL | t0 d rec wd bs cs Ht HH
    | t0 d rec err wd bs cs Ht HH | t0 wd cs Ht | t0 wd cs Ht | t0 wd cs Ht
    | wd wd' cs Hb Hm]; cbn [world calls] in *.
  - (* a call begins *)
    repeat split.
    + intros t' p Hp Hin. destruct (decide (t0 = t')) as [->|Hne].
      * rewrite lookup_insert_eq in Hp. by injection Hp as <-.
      * rewrite lookup_insert_ne in Hp by done. eauto.
    + intros t1 t2 p1 p2 H1 H2 Hi1 Hi2.
      destruct (decide (t0 = t1)) as [->|Hn1];
        [rewrite lookup_insert_eq in H1; by injection H1 as <-|].
      destruct (decide (t0 = t2)) as [->|Hn2];
        [rewrite lookup_insert_eq in H2; by injection H2 as <-|].
      rewrite lookup_insert_ne in H1, H2 by done. eauto.
    + done.
    + intros t' Hp. destruct (decide (t0 = t')) as [->|Hne].
      * rewrite lookup_insert_eq in Hp. discriminate.
      * rewrite lookup_insert_ne in Hp by done. eauto.
  - (* Lock *)
    destruct (Lock_Some _ _ _ HL) as (Hf & Ht' & Hbs).
    assert (Hout : forall t' p, cs !! t' = Some p -> p = atLock).
    { intros t' p Hp. destruct (decide (p = atLock)) as [|Hne]; [done|].
      specialize (Hheld t' p Hp Hne). congruence. }
    repeat split.
    + done.
    + intros t1 t2 p1 p2 H1 H2 Hi1 Hi2.
      destruct (decide (t0 = t1)) as [<-|Hn1], (decide (t0 = t2)) as [<-|Hn2];
        try done.
      * rewrite lookup_insert_ne in H2 by done. by apply Hout in H2.
      * rewrite lookup_insert_ne in H1 by done. by apply Hout in H1.
      * rewrite lookup_insert_ne in H1 by done. by apply Hout in H1.
    + congruence.
    + intros t' Hp. destruct (decide (t0 = t')) as [->|Hne].
      * rewrite lookup_insert_eq in Hp. discriminate.
      * rewrite lookup_insert_ne in Hp by done. by apply Hout in Hp.
  - (* the delegate has written *)
    assert (Hm : held m wd = true) by (eapply Hheld; [exact Ht|done]).
    moved Hheld Hone Ht t0.
    + unfold held in *. cbn. congruence.
    + intros t' Hp.
      assert (t' = t0) as -> by (by eapply (moved_alone _ _ _ _ _ _ Hone Ht)).
      rewrite lookup_insert_eq in Hp. discriminate.
  - (* the delegate has failed *)
    assert (Hm : held m wd = true) by (eapply Hheld; [exact Ht|done]).
    moved Hheld Hone Ht t0.
    + unfold held in *. cbn. congruence.
    + intros t' Hp.
      assert (t' = t0) as -> by (by eapply (moved_alone _ _ _ _ _ _ Hone Ht)).
      rewrite lookup_insert_eq in Hp. discriminate.
  - (* Unmarshal reads the buffer *)
    assert (Hm : held m wd = true) by (eapply Hheld; [exact Ht|done]).
    moved Hheld Hone Ht t0.
    + congruence.
    + intros t' Hp.
      assert (t' = t0) as -> by (by eapply (moved_alone _ _ _ _ _ _ Hone Ht)).
      rewrite lookup_insert_eq in Hp. discriminate.
  - (* Reset *)
    moved Hheld Hone Ht t0.
    + intros _. apply Bytes_Reset.
    + intros _ _. apply Bytes_Reset.
  - (* Unlock *)
    assert (Hout : forall t' p, t' <> t0 -> cs !! t' = Some p -> p = atLock).
    { intros t' p Hne Hp. destruct (decide (p = atLock)) as [|Hi]; [done|].
      exfalso. apply Hne. eapply Hone; eauto; done. }
    repeat split.
    + intros t' p Hp Hin. destruct (decide (t0 = t')) as [->|Hne].
      * by rewrite lookup_delete_eq in Hp.
      * rewrite lookup_delete_ne in Hp by done.
        apply Hout in Hp; [done|congruence].
    + intros t1 t2 p1 p2 H1 H2 Hi1 Hi2.
      destruct (decide (t0 = t1)) as [->|Hn1];
        [by rewrite lookup_delete_eq in H1|].
      rewrite lookup_delete_ne in H1 by done.
      apply Hout in H1; [done|congruence].
    + intros _. eauto.
    + intros t' _. eauto.
  - (* the rest of the program *)
    unfold held, bytes.Bytes in *. rewrite Hb, Hm. auto.
Qed.

Lemma invariant_reachable (s : state) : reachable b m s -> invariant b m s.
Proof.
  intros (s0 & Hinit & Hsteps).
  eapply (rtc_ind_r (fun s => invariant b m s) s0);
    [by apply invariant_initial| |exact Hsteps].
  intros s1 s2 _ Hstep IH. eapply invariant_step; eauto.
Qed.

End Interleaving.

(** A call of [computeAttrs] that returns is a run of the statements of one
    goroutine. *)
Lemma computeAttrs_steps {H : Type} `{!slog.Handler H}
    (this : flarelog.Handler H) (rec : Record) (wd wd' : World)
    (res : result json.Map) (t : nat) (cs : gmap nat concurrent.pc) :
  flarelog.computeAttrs this rec wd = Some (wd', res) ->
  cs !! t = None ->
  rtc (concurrent.step (flarelog.b this) (flarelog.m this))
      (concurrent.mkState wd cs) (concurrent.mkState wd' cs).
Proof.
  intros Hc Ht. unfold flarelog.computeAttrs in Hc.
  destruct (Lock (flarelog.m this) wd) as [wd1|] eqn:HL; [|discriminate].
  cbn in Hc.
  assert (Hend : forall p (c : gmap nat concurrent.pc),
             c !! t = None -> delete t (<[t := p]> c) = c).
  { intros p c Hn. rewrite delete_insert_eq. by apply delete_id. }
  eapply rtc_l; [by apply concurrent.step_call|].
  eapply rtc_l; [eapply concurrent.step_Lock; [apply lookup_insert_eq|exact HL]|].
  rewrite insert_insert_eq.
  destruct (slog.Handle (flarelog.h this) rec (bufs wd1)) as [[bs [err|]]|] eqn:HH;
    [| |discriminate].
  - injection Hc as <- <-.
    eapply rtc_l;
      [eapply concurrent.step_Handle_error; [apply lookup_insert_eq|exact HH]|].
    rewrite insert_insert_eq.
    eapply rtc_l; [eapply concurrent.step_Reset; apply lookup_insert_eq|].
    rewrite insert_insert_eq.
    eapply rtc_l; [eapply concurrent.step_Unlock; apply lookup_insert_eq|].
    rewrite Hend by done. apply rtc_refl.
  - assert (wd' = flarelog.resetAndUnlock this (setBufs bs wd1)) as ->
      by (destruct (json.Unmarshal _); congruence).
    eapply rtc_l; [eapply concurrent.step_Handle; [apply lookup_insert_eq|exact HH]|].
    rewrite insert_insert_eq.
    eapply rtc_l; [eapply concurrent.step_Unmarshal; apply lookup_insert_eq|].
    rewrite insert_insert_eq.
    eapply rtc_l; [eapply concurrent.step_Reset; apply lookup_insert_eq|].
    rewrite insert_insert_eq.
    eapply rtc_l; [eapply concurrent.step_Unlock; apply lookup_insert_eq|].
    rewrite Hend by done. apply rtc_refl.
Qed.

(** [NewHandler] leaves the buffer empty and the mutex free. *)
Lemma NewHandler_initial (opts : option HandlerOptions) (wd : World) :
  let this := fst (flarelog.NewHandler opts wd) in
  concurrent.initial (flarelog.b this) (flarelog.m this)
    (concurrent.mkState (snd (flarelog.NewHandler opts wd)) ∅).
Proof.
  unfold concurrent.initial, held, bytes.Bytes. cbn.
  by rewrite !lookup_insert_eq.
Qed.

(** C1. A call of [computeAttrs] that returns has taken the mutex when it
    was free and leaves the buffer empty and the mutex free, whichever way
    it returns; it is a run of the interleaving model.  In every state that
    calls running concurrently on handlers sharing the buffer and the mutex
    can reach, the buffer is empty whenever the mutex is not held (so it is
    empty when a call takes the mutex), every call past its [Lock] holds
    the mutex (the write, the parse and the reset happen under it), at most
    one call is past its [Lock], and the buffer is already reset when a
    call reaches its [Unlock].  The state in which [NewHandler] returns is
    a state to start from. *)
Theorem C1_buffer_empty_outside_lock {H : Type} `{!slog.Handler H}
    (this : flarelog.Handler H) :
  (forall rec wd wd' res,
      flarelog.computeAttrs this rec wd = Some (wd', res) ->
      held (flarelog.m this) wd = false
      /\ bytes.Bytes (bufs wd') (flarelog.b this) = ""
      /\ held (flarelog.m this) wd' = false
      /\ forall t cs,
           cs !! t = None ->
           rtc (concurrent.step (flarelog.b this) (flarelog.m this))
               (concurrent.mkState wd cs) (concurrent.mkState wd' cs))
  /\ (forall s,
        concurrent.reachable (flarelog.b this) (flarelog.m this) s ->
        (held (flarelog.m this) (concurrent.world s) = false ->
         bytes.Bytes (bufs (concurrent.world s)) (flarelog.b this) = "")
        /\ (forall t p,
              concurrent.calls s !! t = Some p -> p <> concurrent.atLock ->
              held (flarelog.m this) (concurrent.world s) = true)
        /\ (forall t t' p p',
              concurrent.calls s !! t = Some p ->
              concurrent.calls s !! t' = Some p' ->
              p <> concurrent.atLock -> p' <> concurrent.atLock -> t = t')
        /\ (forall t,
              concurrent.calls s !! t = Some concurrent.atUnlock ->
              bytes.Bytes (bufs (concurrent.world s)) (flarelog.b this) = ""))
  /\ (forall opts wd,
        let made := fst (flarelog.NewHandler opts wd) in
        concurrent.initial (flarelog.b made) (flarelog.m made)
          (concurrent.mkState (snd (flarelog.NewHandler opts wd)) ∅)).
Proof.
  split; [|split].
  - intros rec wd wd' res Hc.
    destruct (computeAttrs_exit _ _ _ _ _ Hc) as (wd1 & bs & e & HL & _ & ->).
    destruct (Lock_Some _ _ _ HL) as (Hfree & _ & _).
    destruct (resetAndUnlock_spec this (setBufs bs wd1)) as (Hb & Hm).
    repeat split; try done.
    intros t cs Ht. by eapply computeAttrs_steps.
  - intros s Hs.
    destruct (invariant_reachable _ _ _ Hs) as (Hheld & Hone & Hfree & Hunl).
    repeat split; eauto.
  - apply NewHandler_initial.
Qed.

Lemma C1_witness :
  exists wd' res,
    @flarelog.computeAttrs _ (JSONHandler_Handler 8) sampleHandler sampleRecord
      sampleStart = Some (wd', res)
    /\ bytes.Bytes (bufs wd') (flarelog.b sampleHandler) = ""
    /\ held (flarelog.m sampleHandler) wd' = false.
Proof.
  destruct (@flarelog.computeAttrs _ (JSONHandler_Handler 8) sampleHandler
              sampleRecord sampleStart) as [[wd' res]|] eqn:E;
    [|vm_compute in E; discriminate].
  exists wd', res. split; [reflexivity|].
  destruct (proj1 (@C1_buffer_empty_outside_lock _ (JSONHandler_Handler 8)
                     sampleHandler) _ _ _ _ E) as (_ & Hb & Hm & _).
  by split.
Defined.

(** ** Errors of [Handle] *)

Lemma Handle_error_inv {H : Type} `{!slog.Handler H}
    (this : flarelog.Handler H) (rec : Record) (wd wd' : World) (err : error) :
  flarelog.Handle this rec wd = (wd', returns (Some err)) ->
  failure this rec wd err
  /\ stdout wd' = stdout wd /\ logFile wd' = logFile wd /\ stderr wd' = stderr wd.
Proof.
  unfold flarelog.Handle, flarelog.computeAttrs.
  destruct (Lock (flarelog.m this) wd) as [wd1|] eqn:HL; cbn; [|discriminate].
  assert (Hsame : stdout wd1 = stdout wd /\ logFile wd1 = logFile wd
                  /\ stderr wd1 = stderr wd).
  { unfold Lock in HL. destruct (held _ _); [discriminate|].
    by injection HL as <-. }
  destruct (slog.Handle (flarelog.h this) rec (bufs wd1)) as [[bs [e|]]|] eqn:HH;
    [| |discriminate].
  - intros [= <- <-]. split; [by econstructor|exact Hsame].
  - destruct (json.Unmarshal _) as [attrs|e] eqn:HU.
    + destruct (json.MarshalIndent attrs) as [text|e] eqn:HM.
      * destruct (flarelog.composeLines _ _) as [styledOut outForLog].
        unfold flarelog.openLogFile, flarelog.Fatal. cbn.
        destruct (openError wd1); discriminate.
      * intros [= <- <-]. split; [by eapply marshalFails|exact Hsame].
    + intros [= <- <-]. split; [by eapply unmarshalFails|exact Hsame].
Qed.

Lemma failure_Handle {H : Type} `{!slog.Handler H}
    (this : flarelog.Handler H) (rec : Record) (wd : World) (err : error) :
  failure this rec wd err ->
  exists wd', flarelog.Handle this rec wd = (wd', returns (Some err)).
Proof.
  unfold flarelog.Handle, flarelog.computeAttrs.
  intros [wd1 bs e HL HH | wd1 bs e HL HH HU | wd1 bs attrs e HL HH HU HM];
    rewrite HL; cbn; rewrite HH; cbn.
  - eauto.
  - rewrite HU. eauto.
  - rewrite HU, HM. eauto.
Qed.

(** C4. [Handle] returns an error exactly in the three cases of [failure]:
    the delegate's [Handle] fails, the buffer does not unmarshal, or the
    attributes do not marshal, and the error returned wraps the cause with
    the text of that stage.  When [Handle] returns an error, nothing was
    printed on standard output, written to the log file or written to
    standard error. *)
Theorem C4_errors_and_no_partial_output {H : Type} `{!slog.Handler H}
    (this : flarelog.Handler H) (rec : Record) (wd : World) :
  (forall err,
      (exists wd', flarelog.Handle this rec wd = (wd', returns (Some err)))
      <-> failure this rec wd err)
  /\ (forall wd' err,
        flarelog.Handle this rec wd = (wd', returns (Some err)) ->
        stdout wd' = stdout wd /\ logFile wd' = logFile wd
        /\ stderr wd' = stderr wd).
Proof.
  split.
  - intros err. split.
    + intros [wd' Hh]. by apply Handle_error_inv in Hh as [? _].
    + apply failure_Handle.
  - intros wd' err Hh. by apply Handle_error_inv in Hh as [_ ?].
Qed.

Lemma C4_witness :
  exists wd' err,
    @flarelog.Handle _ garbling garblingHandler sampleRecord sampleWorld
    = (wd', returns (Some err))
    /\ stdout wd' = [] /\ logFile wd' = [] /\ stderr wd' = [].
Proof.
  destruct (@flarelog.Handle _ garbling garblingHandler sampleRecord sampleWorld)
    as [wd' [[err|]| |]] eqn:E; try (vm_compute in E; discriminate).
  exists wd', err. split; [reflexivity|].
  exact (proj2 (@C4_errors_and_no_partial_output _ garbling garblingHandler
                  sampleRecord sampleWorld) wd' err E).
Defined.

(** ** Derived handlers *)

(** C8. [WithAttrs] and [WithGroup] return a handler with the buffer
    address, the mutex address and the rewrite hook of the receiver; the
    delegate alone differs, and it is the receiver's delegate bound to the
    attributes, or scoped to the group.  A call on the derived handler
    therefore takes the receiver's mutex and resets the receiver's
    buffer. *)
Theorem C8_derived_handlers_share {H : Type} `{!slog.Handler H}
    (this : flarelog.Handler H) (attrs : list Attr) (name : string) :
  flarelog.WithAttrs this attrs
  = {| flarelog.h := slog.WithAttrs (flarelog.h this) attrs;
       flarelog.r := flarelog.r this;
       flarelog.b := flarelog.b this;
       flarelog.m := flarelog.m this |}
  /\ flarelog.WithGroup this name
     = {| flarelog.h := slog.WithGroup (flarelog.h this) name;
          flarelog.r := flarelog.r this;
          flarelog.b := flarelog.b this;
          flarelog.m := flarelog.m this |}
  /\ flarelog.b (flarelog.WithAttrs this attrs) = flarelog.b this
  /\ flarelog.m (flarelog.WithAttrs this attrs) = flarelog.m this
  /\ flarelog.r (flarelog.WithAttrs this attrs) = flarelog.r this
  /\ flarelog.b (flarelog.WithGroup this name) = flarelog.b this
  /\ flarelog.m (flarelog.WithGroup this name) = flarelog.m this
  /\ flarelog.r (flarelog.WithGroup this name) = flarelog.r this
  /\ (forall wd,
        Lock (flarelog.m (flarelog.WithAttrs this attrs)) wd
        = Lock (flarelog.m this) wd
        /\ flarelog.resetAndUnlock (flarelog.WithAttrs this attrs) wd
           = flarelog.resetAndUnlock this wd
        /\ Lock (flarelog.m (flarelog.WithGroup this name)) wd
           = Lock (flarelog.m this) wd
        /\ flarelog.resetAndUnlock (flarelog.WithGroup this name) wd
           = flarelog.resetAndUnlock this wd).
Proof. repeat split. Qed.

(** The JSON delegate of a derived handler still writes to the buffer of
    the receiver. *)
Lemma JSONHandler_derived_writer (hd : JSONHandler) (attrs : list Attr) (name : string) :
  w (JSONHandler_WithAttrs hd attrs) = w hd /\ w (JSONHandler_WithGroup hd name) = w hd.
Proof. unfold JSONHandler_WithAttrs. by destruct (allEmptyGroups attrs). Qed.

(** ** Construction *)

(** C10. [NewHandler(nil)] is [NewHandler] of the zero options: the same
    handler in the same world, with no rewrite hook, no minimum level and
    no source locations.  [NewHandler] is a total function, so it returns
    on every input. *)
Theorem C10_NewHandler_nil (wd : World) :
  flarelog.NewHandler None wd = flarelog.NewHandler (Some zeroOptions) wd
  /\ flarelog.r (fst (flarelog.NewHandler None wd)) = None
  /\ Level_opt (opts (flarelog.h (fst (flarelog.NewHandler None wd)))) = None
  /\ AddSource (opts (flarelog.h (fst (flarelog.NewHandler None wd)))) = false
  /\ w (flarelog.h (fst (flarelog.NewHandler None wd)))
     = flarelog.b (fst (flarelog.NewHandler None wd)).
Proof. repeat split. Qed.

(** ** The two lines of output *)

Lemma string_app_assoc (x y z : string) : (x +:+ y) +:+ z = x +:+ (y +:+ z).
Proof.
  induction x as [|c x IH]; [reflexivity|].
  change (String c ((x +:+ y) +:+ z) = String c (x +:+ (y +:+ z))).
  by rewrite IH.
Qed.

Lemma string_app_nil_r (x : string) : x +:+ "" = x.
Proof.
  induction x as [|c x IH]; [reflexivity|].
  change (String c (x +:+ "") = String c x). by rewrite IH.
Qed.

(** What the JSON delegate of a handler made by [NewHandler] writes for a
    record without attributes, when source locations are off: the empty
    object. *)
Lemma JSONHandler_Handle_no_attrs (d : nat) (b : loc) (lv : option Level)
    (next : option ReplaceAttrFn) (t : Time) (text : string) (l : Level)
    (src : Source) (bs : gmap loc string) :
  JSONHandler_Handle (S d)
    (NewJSONHandler b {| AddSource := false; Level_opt := lv;
                         ReplaceAttr := Some (flarelog.suppressDefaults next) |})
    (mkRecord t text l src []) bs
  = Some (bytes.Write bs b ("{}" +:+ json.newline), None).
Proof.
  unfold JSONHandler_Handle, members. cbn.
  destruct (Time_IsZero t); reflexivity.
Qed.

Lemma string_length_app (x y : string) :
  String.length (x +:+ y) = (String.length x + String.length y)%nat.
Proof.
  induction x as [|c x IH]; [reflexivity|].
  change (S (String.length (x +:+ y)) = S (String.length x + String.length y)).
  by rewrite IH.
Qed.

(** [json.MarshalIndent] does not return an empty text, so the test
    [len(bytes) > 0] of [Handle] always passes. *)
Lemma MarshalIndent_nonempty (attrs : json.Map) (text : string) :
  json.MarshalIndent attrs = Ok text -> (0 < String.length text)%nat.
Proof.
  destruct attrs as [m|]; intros [= <-]; [|cbn; lia].
  cbn [json.sortKeys json.indented]. case_match; [cbn; lia|].
  rewrite string_length_app. cbn. lia.
Qed.

(** C5, at a hook that returns the empty attribute for the message, and at
    one that does so for the time.  The styled fields are empty, as the
    claim says, and a suppressed level leaves nothing in the plain text;
    but for a suppressed message the plain text holds the text of the zero
    value and its separator, and for a suppressed time it is the same as
    without the hook, separator included.  End to end, the line written to
    the log file for the sample record is the one shown. *)
Theorem C5_suppressed_fields_in_plain_line {H : Type} (d : H) (bAddr mAddr : loc)
    (rec : Record) :
  let with_hook keys :=
    flarelog.renderFields
      (flarelog.mkHandler d (Some (suppress keys)) bAddr mAddr) rec in
  let without_hook :=
    flarelog.renderFields (flarelog.mkHandler d None bAddr mAddr) rec in
  flarelog.msg (with_hook [MessageKey]) = ""
  /\ flarelog.outForLog (with_hook [MessageKey])
     = Level_String (Level_ rec) +:+ ": " +:+ " " +:+ "<nil> "
  /\ flarelog.timestamp (with_hook [TimeKey]) = ""
  /\ flarelog.outForLog (with_hook [TimeKey]) = flarelog.outForLog without_hook
  /\ flarelog.level (with_hook [LevelKey]) = ""
  /\ flarelog.outForLog (with_hook [LevelKey]) = " " +:+ Message rec +:+ " "
  /\ logFile
       (fst (@flarelog.Handle _ (JSONHandler_Handler 8)
               (fst (flarelog.NewHandler (Some messageDropped) sampleWorld))
               sampleRecord
               (snd (flarelog.NewHandler (Some messageDropped) sampleWorld))))
     = ["INFO:  <nil> {}"].
Proof.
  cbn. rewrite !string_app_assoc. repeat split.
Qed.

(** The plain line is the text gathered while the fields were rendered,
    followed by the marshalled attributes. *)
Lemma composeLines_plain (f : flarelog.fields) (blob : string) :
  snd (flarelog.composeLines f blob)
  = if (0 <? String.length blob)%nat
    then flarelog.outForLog f +:+ blob else flarelog.outForLog f.
Proof. unfold flarelog.composeLines. by destruct (0 <? String.length blob)%nat. Qed.

(** C6, for a handler without a rewrite hook: the plain text is the level,
    an empty placeholder where the time was meant to be, and the message,
    each followed by a space; the formatted time is not part of it, so two
    records that differ in their time only give the same plain line. *)
Theorem C6_plain_line_without_time {H : Type} (d : H) (bAddr mAddr : loc)
    (t t' : Time) (text : string) (l : Level) (src : Source) (attrs : list Attr)
    (c : ascii) (blob : string) :
  let this := flarelog.mkHandler d None bAddr mAddr in
  let f := flarelog.renderFields this (mkRecord t text l src attrs) in
  let f' := flarelog.renderFields this (mkRecord t' text l src attrs) in
  flarelog.outForLog f = Level_String l +:+ ": " +:+ "" +:+ " " +:+ text +:+ " "
  /\ snd (flarelog.composeLines f (String c blob))
     = Level_String l +:+ ": " +:+ " " +:+ text +:+ " " +:+ String c blob
  /\ snd (flarelog.composeLines f (String c blob))
     = snd (flarelog.composeLines f' (String c blob))
  /\ logFile
       (fst (@flarelog.Handle _ (JSONHandler_Handler 8) sampleHandler
               sampleRecord sampleStart))
     = ["INFO:  Info Level Log {}"].
Proof.
  intros this f f'. rewrite !composeLines_plain.
  assert (Hout : flarelog.outForLog f
                 = Level_String l +:+ ": " +:+ "" +:+ " " +:+ text +:+ " ")
    by (cbn; by rewrite !string_app_assoc).
  assert (Hout' : flarelog.outForLog f' = flarelog.outForLog f) by reflexivity.
  rewrite Hout'. split; [exact Hout|].
  change (0 <? String.length (String c blob))%nat with true. cbv iota.
  rewrite Hout, !string_app_assoc. repeat split.
Qed.

Lemma colorize_nonempty (c : Z) (v : string) :
  (0 <? String.length (flarelog.colorize c v))%nat = true.
Proof.
  unfold flarelog.colorize.
  change (String flarelog.ESC "[" +:+ Itoa c +:+ "m" +:+ v +:+ flarelog.reset)
    with (String flarelog.ESC (String "[" (Itoa c +:+ "m" +:+ v +:+ flarelog.reset))).
  reflexivity.
Qed.

(** The styled line when no field is suppressed and the marshalled
    attributes are not empty. *)
Lemma composeLines_styled (c1 c2 c3 : Z) (ts lv ms out : string) (c : ascii)
    (blob : string) :
  fst (flarelog.composeLines
         {| flarelog.level := flarelog.colorize c2 lv;
            flarelog.timestamp := flarelog.colorize c1 ts;
            flarelog.msg := flarelog.colorize c3 ms;
            flarelog.outForLog := out |} (String c blob))
  = flarelog.colorize c1 ts +:+ " " +:+ flarelog.colorize c2 lv +:+ " "
    +:+ flarelog.colorize c3 ms +:+ " "
    +:+ flarelog.colorize flarelog.darkGray (String c blob).
Proof.
  unfold flarelog.composeLines.
  cbn [flarelog.level flarelog.timestamp flarelog.msg flarelog.outForLog].
  rewrite !colorize_nonempty.
  change (0 <? String.length (String c blob))%nat with true.
  cbv iota. cbn [fst]. by rewrite !string_app_assoc.
Qed.

(** [Handle] when nothing fails. *)
Lemma Handle_returns_nil {H : Type} `{!slog.Handler H}
    (this : flarelog.Handler H) (rec : Record) (wd wd1 : World)
    (bs : gmap loc string) (attrs : json.Map) (blob : string) :
  Lock (flarelog.m this) wd = Some wd1 ->
  slog.Handle (flarelog.h this) rec (bufs wd1) = Some (bs, None) ->
  json.Unmarshal (bytes.Bytes bs (flarelog.b this)) = Ok attrs ->
  json.MarshalIndent attrs = Ok blob ->
  openError wd = None ->
  let lines := flarelog.composeLines (flarelog.renderFields this rec) blob in
  let result := flarelog.Handle this rec wd in
  snd result = returns None
  /\ stdout (fst result) = stdout wd ++ [fst lines]
  /\ (logFile (fst result) = logFile wd ++ [snd lines])
  /\ stderr (fst result) = stderr wd
  /\ bufs (fst result) = bytes.Reset bs (flarelog.b this).
Proof.
  intros HL HH HU HM HO lines result. subst lines result.
  unfold flarelog.Handle, flarelog.computeAttrs.
  rewrite HL. cbn [mbind option_bind]. rewrite HH. cbn [bufs setBufs].
  rewrite HU, HM.
  destruct (flarelog.composeLines _ _) as [styledOut outForLog].
  assert (Hw : stdout wd1 = stdout wd /\ logFile wd1 = logFile wd
               /\ stderr wd1 = stderr wd /\ openError wd1 = openError wd).
  { unfold Lock in HL. destruct (held _ _); [discriminate|]. by injection HL as <-. }
  destruct Hw as (Hso & Hlf & Hse & Hoe).
  unfold flarelog.openLogFile. cbn. rewrite Hoe, HO. cbn.
  by rewrite Hso, Hlf, Hse.
Qed.

(** C7, for the record of [logger.Info("Info Level Log")] at any time and
    call site, handled by [NewHandler(nil)]: [Handle] returns nil; the
    console line is the time in light gray, [INFO:] in cyan and the
    message in white, each followed by a space, and then the marshalled
    empty map, [{}], in dark gray; the line for the log file ends with
    [{}] as well.  The claim has both lines end before the braces. *)
Theorem C7_info_record_lines (t : Time) (src : Source) (d : nat) :
  let rec := mkRecord t "Info Level Log" LevelInfo src [] in
  let result :=
    @flarelog.Handle _ (JSONHandler_Handler (S d)) sampleHandler rec sampleStart in
  snd result = returns None
  /\ stdout (fst result)
     = [flarelog.colorize flarelog.lightGray (Format t flarelog.timeFormat) +:+ " "
        +:+ flarelog.colorize flarelog.cyan "INFO:" +:+ " "
        +:+ flarelog.colorize flarelog.white "Info Level Log" +:+ " "
        +:+ flarelog.colorize flarelog.darkGray "{}"]
  /\ logFile (fst result) = ["INFO:  Info Level Log {}"]
  /\ json.MarshalIndent (Some []) = Ok "{}".
Proof.
  intros rec result.
  destruct (@Handle_returns_nil _ (JSONHandler_Handler (S d)) sampleHandler rec
              sampleStart
              (setMutexes (<[0%nat := true]> (mutexes sampleStart)) sampleStart)
              (bytes.Write (bufs sampleStart) 0%nat ("{}" +:+ json.newline))
              (Some []) "{}")
    as (Hr & Hout & Hfile & _); try reflexivity.
  - apply JSONHandler_Handle_no_attrs.
  - fold result in Hr, Hout, Hfile. rewrite Hr, Hout, Hfile.
    repeat split.
    change (flarelog.renderFields sampleHandler rec) with
      {| flarelog.level := flarelog.colorize flarelog.cyan "INFO:";
         flarelog.timestamp :=
           flarelog.colorize flarelog.lightGray (Format t flarelog.timeFormat);
         flarelog.msg := flarelog.colorize flarelog.white "Info Level Log";
         flarelog.outForLog := "INFO:  Info Level Log " |}.
    by rewrite composeLines_styled.
Qed.

(** ** Empty attribute lists and empty group names *)

Lemma nonBuiltIns_trailing_group (rep : option ReplaceAttrFn) (depth : nat)
    (name : string) (bound : list groupOrAttrs) (groups : list string) :
  nonBuiltIns rep depth groups (bound ++ [boundGroup name]) []
  = nonBuiltIns rep depth groups bound [].
Proof.
  revert groups. induction bound as [|[n|l] bound IH]; intros groups; cbn.
  - reflexivity.
  - by rewrite IH.
  - by rewrite IH.
Qed.

Lemma JSONHandler_Handle_empty_group (depth : nat) (hd : JSONHandler)
    (t : Time) (text : string) (l : Level) (src : Source) (bs : gmap loc string) :
  JSONHandler_Handle depth (JSONHandler_WithGroup hd "") (mkRecord t text l src []) bs
  = JSONHandler_Handle depth hd (mkRecord t text l src []) bs.
Proof.
  unfold JSONHandler_Handle, members, JSONHandler_WithGroup. cbn [opts goas w Attrs].
  by rewrite nonBuiltIns_trailing_group.
Qed.

(** C9, as the code has it.  [WithAttrs] with an empty list returns a
    handler equal to the receiver, so [Enabled] and [Handle] agree on every
    input.  [WithGroup] with the empty name passes the name on to the
    delegate: [Enabled] agrees with the receiver, and so does [Handle] on
    every record that has no attributes. *)
Theorem C9_empty_attrs_empty_group (depth : nat)
    (this : flarelog.Handler JSONHandler) (rec : Record) (wd : World)
    (level : Level) (t : Time) (text : string) (l : Level) (src : Source) :
  let impl := JSONHandler_Handler depth in
  @flarelog.WithAttrs _ impl this [] = this
  /\ @flarelog.Handle _ impl (@flarelog.WithAttrs _ impl this []) rec wd
     = @flarelog.Handle _ impl this rec wd
  /\ @flarelog.Enabled _ impl (@flarelog.WithAttrs _ impl this []) level
     = @flarelog.Enabled _ impl this level
  /\ @flarelog.Enabled _ impl (@flarelog.WithGroup _ impl this "") level
     = @flarelog.Enabled _ impl this level
  /\ @flarelog.Handle _ impl (@flarelog.WithGroup _ impl this "")
       (mkRecord t text l src []) wd
     = @flarelog.Handle _ impl this (mkRecord t text l src []) wd.
Proof.
  intros impl.
  assert (Hsame : @flarelog.WithAttrs _ impl this [] = this) by by destruct this.
  rewrite Hsame. repeat split.
  unfold flarelog.Handle, flarelog.computeAttrs.
  change (flarelog.renderFields (@flarelog.WithGroup _ impl this "") ?r)
    with (flarelog.renderFields this r).
  change (flarelog.m (@flarelog.WithGroup _ impl this "")) with (flarelog.m this).
  destruct (Lock (flarelog.m this) wd) as [wd1|]; [|reflexivity].
  cbn [mbind option_bind].
  change (slog.Handle (flarelog.h (@flarelog.WithGroup _ impl this "")))
    with (JSONHandler_Handle depth (JSONHandler_WithGroup (flarelog.h this) "")).
  change (slog.Handle (flarelog.h this))
    with (JSONHandler_Handle depth (flarelog.h this)).
  by rewrite JSONHandler_Handle_empty_group.
Qed.

(** The claim C9 fails for [WithGroup] with the empty name: the attributes
    of the sample record are nested under the key that is the empty
    string, and the two handlers print different lines. *)
Lemma C9_counterexample :
  let impl := JSONHandler_Handler 8 in
  snd <$> @flarelog.computeAttrs _ impl sampleHandler failedRecord sampleStart
  = Some (Ok (Some [("code", json.Num 500)]))
  /\ snd <$> @flarelog.computeAttrs _ impl (@flarelog.WithGroup _ impl sampleHandler "")
               failedRecord sampleStart
     = Some (Ok (Some [("", json.Obj [("code", json.Num 500)])]))
  /\ stdout (fst (@flarelog.Handle _ impl (@flarelog.WithGroup _ impl sampleHandler "")
                    failedRecord sampleStart))
     <> stdout (fst (@flarelog.Handle _ impl sampleHandler failedRecord sampleStart))
  /\ logFile (fst (@flarelog.Handle _ impl (@flarelog.WithGroup _ impl sampleHandler "")
                     failedRecord sampleStart))
     <> logFile (fst (@flarelog.Handle _ impl sampleHandler failedRecord sampleStart)).
Proof.
  repeat split; try (vm_compute; reflexivity); vm_compute; discriminate.
Qed.

(** ** Suppression of the well-known keys *)

Lemma suppressDefaults_spec (next : option ReplaceAttrFn) (groups : list string)
    (a : Attr) :
  flarelog.suppressDefaults next groups a
  = if wellKnown (Key a) then emptyAttr
    else match next with None => a | Some f => f groups a end.
Proof. reflexivity. Qed.

(** An attribute that is not a group is quiet. *)
Lemma quiet_plain (a : Attr) : isGroup (Val a) = false -> quiet a = true.
Proof. destruct a as [k []]; by cbn. Qed.







(** The wrapped hook drops the three built-in fields whatever the caller's
    hook is. *)
Lemma builtIn_suppressed (next : option ReplaceAttrFn) (d : nat) (key : string)
    (v : Value) :
  wellKnown key = true ->
  isGroup v = false ->
  builtIn (Some (flarelog.suppressDefaults next)) (S d) key v = Some (false, []).
Proof.
  intros Hk Hv. unfold builtIn. cbn [appendAttr Val Key]. rewrite Hv.
  rewrite suppressDefaults_spec. cbn [Key]. by rewrite Hk.
Qed.

Lemma members_NewHandler (opts : option HandlerOptions) (wd : World) (d : nat)
    (rec : Record) :
  members (S d) (flarelog.h (fst (flarelog.NewHandler opts wd))) rec
  = otherMembers (S d) (flarelog.h (fst (flarelog.NewHandler opts wd))) rec.
Proof.
  unfold members, otherMembers.
  cbn [flarelog.NewHandler flarelog.newBuffer flarelog.newMutex fst flarelog.h
       NewJSONHandler slog.opts ReplaceAttr AddSource goas].
  rewrite !builtIn_suppressed by reflexivity.
  destruct (Time_IsZero (Time_ rec)); reflexivity.
Qed.

(** ** Reading back what the JSON handler writes *)

Lemma parseString_escapeByte (c : ascii) (tail : string) :
  parseString (escapeByte false false c +:+ tail)
  = '(t, rest) ← parseString tail; Some (String c t, rest).
Proof.
  destruct c as [[] [] [] [] [] [] [] []]; reflexivity.
Qed.

Lemma parseString_escape (s rest : string) :
  parseString (escape false false s +:+ String dquote rest) = Some (s, rest).
Proof.
  induction s as [|c s IH].
  - reflexivity.
  - cbn [escape]. rewrite string_app_assoc, parseString_escapeByte, IH.
    reflexivity.
Qed.

Lemma parseDigits_uint (u : uint) (acc : Z) (rest : string) :
  delimited rest = true ->
  parseDigits acc (NilEmpty.string_of_uint u +:+ rest) = (digitsValue acc u, rest).
Proof.
  intros Hrest. revert acc.
  induction u as [|u IH|u IH|u IH|u IH|u IH|u IH|u IH|u IH|u IH|u IH]; intros acc;
    try (cbn [NilEmpty.string_of_uint digitsValue]; rewrite <- IH; reflexivity).
  cbn [NilEmpty.string_of_uint digitsValue].
  change ("" +:+ rest) with rest.
  destruct rest as [|c rest]; [reflexivity|].
  cbn in Hrest. cbn [parseDigits].
  destruct (digitVal c); [discriminate|reflexivity].
Qed.

Lemma digitsValue_acc (u : uint) (acc : positive) :
  digitsValue (Z.pos acc) u = Z.pos (Pos.of_uint_acc u acc).
Proof.
  revert acc.
  induction u as [|u IH|u IH|u IH|u IH|u IH|u IH|u IH|u IH|u IH|u IH]; intros acc;
    cbn [digitsValue Pos.of_uint_acc]; [reflexivity|..];
    match goal with
    | |- digitsValue ?z _ = Z.pos (Pos.of_uint_acc _ ?p) =>
        replace z with (Z.pos p) by lia; apply IH
    end.
Qed.

Lemma digitsValue_of_uint (u : uint) : digitsValue 0 u = Z.of_N (Pos.of_uint u).
Proof.
  induction u as [|u IH|u IH|u IH|u IH|u IH|u IH|u IH|u IH|u IH|u IH];
    cbn [digitsValue Pos.of_uint]; [reflexivity|exact IH|..]; apply (digitsValue_acc u).
Qed.

Lemma nzhead_not_D0 (u u' : uint) : nzhead u <> D0 u'.
Proof. induction u; cbn; try discriminate; auto. Qed.

(** The decimal digits of a positive number do not start with a zero. *)
Lemma to_uint_head (p : positive) :
  match Pos.to_uint p with Nil | D0 _ => False | _ => True end.
Proof.
  assert (Hn : unorm (Pos.to_uint p) = Pos.to_uint p).
  { rewrite <- DecimalPos.Unsigned.to_of, DecimalPos.Unsigned.of_to. reflexivity. }
  pose proof (DecimalPos.Unsigned.to_uint_nonzero p) as Hz.
  pose proof (DecimalPos.Unsigned.to_uint_nonnil p) as Hnil.
  destruct (Pos.to_uint p) as [|u| | | | | | | | |] eqn:E; try exact I; [done|].
  rewrite unorm_D0 in Hn. unfold unorm in Hn.
  destruct (nzhead u) eqn:Hu; try discriminate.
  - injection Hn as <-. by destruct Hz.
  - by apply nzhead_not_D0 in Hu.
Qed.

Lemma parseNat_Itoa (p : positive) (rest : string) :
  delimited rest = true ->
  parseNat (Itoa (Z.pos p) +:+ rest) = Some (Z.pos p, rest).
Proof.
  intros Hrest. unfold Itoa. cbn [Z.to_int NilZero.string_of_int].
  pose proof (to_uint_head p) as Hhead.
  assert (Hval : digitsValue 0 (Pos.to_uint p) = Z.pos p)
    by (rewrite digitsValue_of_uint, DecimalPos.Unsigned.of_to; reflexivity).
  destruct (Pos.to_uint p) as [|u|u|u|u|u|u|u|u|u|u]; try done;
    cbn [NilZero.string_of_uint NilEmpty.string_of_uint digitsValue] in *;
    match goal with
    | |- parseNat (String ?c ?t +:+ rest) = _ =>
        change (String c t +:+ rest) with (String c (t +:+ rest))
    end;
    cbn [parseNat];
    match goal with
    | |- context [digitVal ?c] =>
        let v := eval vm_compute in (digitVal c) in change (digitVal c) with v
    end;
    cbv iota; rewrite parseDigits_uint by done;
    by rewrite <- Hval.
Qed.

Lemma delimited_endsNumber (rest : string) : delimited rest = true -> endsNumber rest = true.
Proof. destruct rest as [|c rest]; [done|]. cbn. by intros [_ ?]%andb_prop. Qed.

(** A value that starts with a digit is a number. *)
Lemma parseValue_digit (fuel : nat) (c : ascii) (r : string) (d : Z) :
  digitVal c = Some d ->
  parseValue (S fuel) (String c r)
  = '(n, r') ← parseNat (String c r);
    if endsNumber r' then Some (Num n, r') else None.
Proof.
  destruct c as [[] [] [] [] [] [] [] []]; try discriminate; reflexivity.
Qed.

Lemma parseValue_minus (fuel : nat) (r : string) :
  parseValue (S fuel) (String "-" r)
  = '(n, r') ← parseNat r;
    if endsNumber r' then Some (Num (- n), r') else None.
Proof. reflexivity. Qed.

Lemma parseValue_Num (fuel : nat) (n : Z) (rest : string) :
  delimited rest = true ->
  parseValue (S fuel) (compact (Num n) +:+ rest) = Some (Num n, rest).
Proof.
  intros Hrest. cbn [compact]. pose proof (delimited_endsNumber _ Hrest) as Hend.
  destruct n as [|p|p].
  - change (Itoa 0 +:+ rest) with (String "0" rest).
    rewrite (parseValue_digit _ _ _ 0) by reflexivity.
    assert (parseNat (String "0" rest) = Some (0, rest)) as ->.
    { destruct rest as [|c rest]; [reflexivity|].
      cbn in Hrest. apply andb_prop in Hrest as [Hd _].
      cbn [parseNat]. change (digitVal "0") with (Some 0). cbv iota.
      by destruct (digitVal c). }
    cbn. by rewrite Hend.
  - pose proof (parseNat_Itoa p rest Hrest) as Hp.
    assert (exists c r d, Itoa (Z.pos p) +:+ rest = String c r /\ digitVal c = Some d)
      as (c & r & d & Htext & Hd).
    { unfold Itoa. cbn [Z.to_int NilZero.string_of_int].
      pose proof (to_uint_head p) as Hhead.
      destruct (Pos.to_uint p) as [|u|u|u|u|u|u|u|u|u|u]; try done;
        cbn [NilZero.string_of_uint NilEmpty.string_of_uint];
        do 3 eexists; (split; [reflexivity|]); reflexivity. }
    rewrite Htext in *. rewrite (parseValue_digit _ _ _ d Hd), Hp.
    cbn. by rewrite Hend.
  - pose proof (parseNat_Itoa p rest Hrest) as Hp.
    change (Itoa (Z.neg p) +:+ rest) with (String "-" (Itoa (Z.pos p) +:+ rest)).
    rewrite parseValue_minus, Hp. cbn. by rewrite Hend.
Qed.

Lemma value_ind' (P : value -> Prop) :
  P Null -> (forall b, P (Bool b)) -> (forall n, P (Num n)) -> (forall s, P (Str s)) ->
  (forall l, Forall P l -> P (Arr l)) ->
  (forall m, Forall (fun kx => P (snd kx)) m -> P (Obj m)) ->
  forall v, P v.
Proof.
  intros HNull HBool HNum HStr HArr HObj.
  fix IH 1. intros [|b|n|s|l|m];
    [exact HNull|apply HBool|apply HNum|apply HStr| |].
  - apply HArr. induction l as [|x l IHl]; constructor; [apply IH|exact IHl].
  - apply HObj. induction m as [|[k x] m IHm]; constructor; [apply IH|exact IHm].
Qed.

Lemma commaSeparated_cons {A : Type} (text : A -> string) (x y : A) (l : list A) :
  commaSeparated text (x :: y :: l)
  = text x +:+ "," +:+ commaSeparated text (y :: l).
Proof. reflexivity. Qed.

Lemma Itoa_digit_or_minus (n : Z) :
  exists c r, Itoa n = String c r /\ (c = "-"%char \/ exists d, digitVal c = Some d).
Proof.
  destruct n as [|p|p]; unfold Itoa; cbn [Z.to_int NilZero.string_of_int].
  - do 2 eexists. split; [reflexivity|]. right. by eexists.
  - pose proof (to_uint_head p) as Hhead.
    destruct (Pos.to_uint p) as [|u|u|u|u|u|u|u|u|u|u]; try done;
      cbn [NilZero.string_of_uint NilEmpty.string_of_uint];
      do 2 eexists; (split; [reflexivity|]); right; by eexists.
  - do 2 eexists. split; [reflexivity|]. by left.
Qed.

Lemma compact_starts (v : value) (rest : string) : startsValue (compact v +:+ rest).
Proof.
  destruct v as [|[]|n|s|l|m]; cbn [compact];
    try (do 2 eexists; split; [reflexivity|done]).
  destruct (Itoa_digit_or_minus n) as (c & r & -> & Hc).
  exists c, (r +:+ rest). split; [reflexivity|].
  destruct Hc as [->|[d Hd]]; [done|].
  destruct c as [[] [] [] [] [] [] [] []]; try discriminate; done.
Qed.

Lemma skipSpace_starts (s : string) : startsValue s -> skipSpace s = s.
Proof. intros (c & r & -> & Hc & _). cbn. by rewrite Hc. Qed.

Lemma parseElements_compact (l : list value) :
  Forall readsBack l -> l <> [] ->
  forall acc fuel rest,
    (list_sum (List.map (fun x => S (nodes x)) l) <= fuel)%nat ->
    parseElements fuel (commaSeparated compact l +:+ "]" +:+ rest) acc
    = Some (Arr (acc ++ l), rest).
Proof.
  induction l as [|x l IH]; [done|]. intros Hl _ acc fuel rest Hfuel.
  inversion Hl as [|? ? Hx Hl']; subst.
  destruct fuel as [|fuel]; [cbn in Hfuel; lia|].
  cbn [List.map list_sum] in Hfuel.
  destruct l as [|y l].
  - cbn [commaSeparated parseElements].
    change ("]" +:+ rest) with (String "]" rest).
    rewrite (Hx fuel (String "]" rest)) by (cbn in *; done || lia).
    reflexivity.
  - rewrite commaSeparated_cons, !string_app_assoc. cbn [parseElements].
    rewrite (Hx fuel) by (cbn in *; done || lia).
    cbn [mbind option_bind].
    change ("," +:+ ?t) with (String "," t).
    cbn [skipSpace]. change (isSpace ",") with false. cbv iota.
    change (Ascii.eqb "," ",") with true. cbv iota.
    rewrite IH by (done || (cbn in *; lia)).
    by rewrite <- app_assoc.
Qed.

Lemma after_quote (s : string) :
  after (String dquote "") (String dquote s) = Some s.
Proof. reflexivity. Qed.

Lemma quote_app (k rest : string) :
  quote false false k +:+ rest
  = String dquote (escape false false k +:+ String dquote rest).
Proof.
  unfold quote.
  change (String dquote (escape false false k) +:+ String dquote "")
    with (String dquote (escape false false k +:+ String dquote "")).
  change (String dquote (escape false false k +:+ String dquote "") +:+ rest)
    with (String dquote ((escape false false k +:+ String dquote "") +:+ rest)).
  by rewrite string_app_assoc.
Qed.

Lemma parseMembers_compact (m : list (string * value)) :
  Forall (fun kx => readsBack (snd kx)) m -> m <> [] ->
  forall acc fuel rest,
    (list_sum (List.map (fun kx => S (nodes (snd kx))) m) <= fuel)%nat ->
    parseMembers fuel
      (commaSeparated
         (fun kx => let '(k, x) := kx in quote false false k +:+ ":" +:+ compact x) m
       +:+ "}" +:+ rest) acc
    = Some (Obj (acc ++ m), rest).
Proof.
  induction m as [|[k x] m IH]; [done|]. intros Hm _ acc fuel rest Hfuel.
  inversion Hm as [|? ? Hx Hm']; subst. cbn [snd] in Hx.
  destruct fuel as [|fuel]; [cbn in Hfuel; lia|].
  cbn [List.map list_sum snd] in Hfuel.
  destruct m as [|y m].
  - cbn [commaSeparated parseMembers].
    rewrite !string_app_assoc, quote_app.
    cbn [skipSpace]. change (isSpace dquote) with false. cbv iota.
    rewrite after_quote. cbn [mbind option_bind].
    rewrite parseString_escape. cbn [mbind option_bind].
    change (":" +:+ ?t) with (String ":" t).
    cbn [skipSpace]. change (isSpace ":") with false. cbv iota.
    change (after ":" (String ":" ?t)) with (Some t). cbn [mbind option_bind].
    change ("}" +:+ rest) with (String "}" rest).
    rewrite (Hx fuel (String "}" rest)) by (cbn in *; done || lia).
    reflexivity.
  - rewrite commaSeparated_cons, !string_app_assoc, quote_app.
    cbn [parseMembers].
    cbn [skipSpace]. change (isSpace dquote) with false. cbv iota.
    rewrite after_quote. cbn [mbind option_bind].
    rewrite parseString_escape. cbn [mbind option_bind].
    change (":" +:+ ?t) with (String ":" t).
    cbn [skipSpace]. change (isSpace ":") with false. cbv iota.
    change (after ":" (String ":" ?t)) with (Some t). cbn [mbind option_bind].
    change ("," +:+ ?t) with (String "," t).
    rewrite (Hx fuel) by (cbn in *; done || lia).
    cbn [mbind option_bind].
    cbn [skipSpace]. change (isSpace ",") with false. cbv iota.
    change (Ascii.eqb "," ",") with true. cbv iota.
    rewrite IH by (done || (cbn in *; lia)).
    by rewrite <- app_assoc.
Qed.


Lemma after_miss (c : ascii) (s : string) :
  startsValue s -> c = "]"%char \/ c = "}"%char ->
  after (String c "") (skipSpace s) = None.
Proof.
  intros Hs Hc. rewrite skipSpace_starts by done.
  destruct Hs as (c' & r & -> & _ & H1 & H2). cbn [after].
  destruct Hc as [-> | ->].
  - rewrite Ascii.eqb_sym, H1. reflexivity.
  - rewrite Ascii.eqb_sym, H2. reflexivity.
Qed.

Lemma commaSeparated_starts {A : Type} (text : A -> string) (l : list A) (rest : string) :
  l <> [] -> (forall x r, startsValue (text x +:+ r)) ->
  startsValue (commaSeparated text l +:+ rest).
Proof.
  intros Hl Htext. destruct l as [|x [|y l]]; [done| |].
  - apply Htext.
  - rewrite commaSeparated_cons, string_app_assoc. apply Htext.
Qed.

Theorem parseValue_compact (v : value) : readsBack v.
Proof.
  induction v as [|b|n|s|l IH|m IH] using value_ind'; intros fuel rest Hfuel Hrest;
    (destruct fuel as [|fuel]; [cbn in Hfuel; lia|]).
  - reflexivity.
  - by destruct b.
  - by apply parseValue_Num.
  - cbn [compact]. rewrite quote_app.
    cbn [parseValue skipSpace]. change (isSpace dquote) with false. cbv iota.
    change (Ascii.eqb dquote "{") with false.
    change (Ascii.eqb dquote "[") with false.
    change (Ascii.eqb dquote dquote) with true. cbv iota.
    by rewrite parseString_escape.
  - cbn [compact].
    change ("[" +:+ commaSeparated compact l +:+ "]") with
      (String "[" (commaSeparated compact l +:+ "]")).
    change (String "[" (commaSeparated compact l +:+ "]") +:+ rest) with
      (String "[" ((commaSeparated compact l +:+ "]") +:+ rest)).
    rewrite string_app_assoc.
    cbn [parseValue skipSpace]. change (isSpace "[") with false. cbv iota.
    change (Ascii.eqb "[" "{") with false.
    change (Ascii.eqb "[" "[") with true. cbv iota.
    destruct l as [|x l]; [reflexivity|].
    rewrite after_miss; [|apply commaSeparated_starts; [done|apply compact_starts]|by left].
    apply (parseElements_compact (x :: l) IH); [done|].
    cbn [nodes] in Hfuel. lia.
  - cbn [compact].
    match goal with
    | |- context [commaSeparated ?f m] => set (text := f)
    end.
    change ("{" +:+ commaSeparated text m +:+ "}") with
      (String "{" (commaSeparated text m +:+ "}")).
    change (String "{" (commaSeparated text m +:+ "}") +:+ rest) with
      (String "{" ((commaSeparated text m +:+ "}") +:+ rest)).
    rewrite string_app_assoc.
    cbn [parseValue skipSpace]. change (isSpace "{") with false. cbv iota.
    change (Ascii.eqb "{" "{") with true. cbv iota.
    destruct m as [|kx m]; [reflexivity|].
    rewrite after_miss; [| |by right].
    + apply (parseMembers_compact (kx :: m) IH); [done|].
      cbn [nodes] in Hfuel. lia.
    + apply commaSeparated_starts; [done|].
      intros [k x] r. subst text. cbn beta iota. rewrite quote_app.
      do 2 eexists. split; [reflexivity|done].
Qed.

Lemma Itoa_length (n : Z) : (1 <= String.length (Itoa n))%nat.
Proof. destruct (Itoa_digit_or_minus n) as (c & r & -> & _). cbn. lia. Qed.

Lemma quote_length (s : string) : (1 <= String.length (quote false false s))%nat.
Proof. rewrite <- (string_app_nil_r (quote _ _ _)), quote_app. cbn. lia. Qed.

Lemma commaSeparated_length {A : Type} (text : A -> string) (sz : A -> nat)
    (l : list A) :
  Forall (fun x => (sz x <= String.length (text x))%nat) l ->
  (list_sum (List.map (fun x => S (sz x)) l)
   <= S (String.length (commaSeparated text l)))%nat.
Proof.
  induction l as [|x l IH]; intros Hl; [cbn; lia|].
  inversion Hl as [|? ? Hx Hl']; subst. specialize (IH Hl').
  destruct l as [|y l].
  - cbn in *. lia.
  - rewrite commaSeparated_cons, !string_length_app.
    cbn [List.map list_sum fold_right] in *. cbn [String.length]. lia.
Qed.

Lemma nodes_le_length (v : value) : (nodes v <= String.length (compact v))%nat.
Proof.
  induction v as [|b|n|s|l IH|m IH] using value_ind'; cbn [nodes compact].
  - cbn. lia.
  - destruct b; cbn; lia.
  - apply Itoa_length.
  - apply quote_length.
  - rewrite !string_length_app. cbn [String.length].
    pose proof (commaSeparated_length compact nodes l IH). lia.
  - rewrite !string_length_app. cbn [String.length].
    match goal with |- context [commaSeparated ?f m] => set (text := f) end.
    pose proof (commaSeparated_length text (fun kx => nodes (snd kx)) m) as Hm.
    cbn beta in Hm. enough (Forall (fun x => (nodes (snd x) <= String.length (text x))%nat) m)
      by (specialize (Hm ltac:(assumption)); lia).
    eapply Forall_impl; [exact IH|]. intros [k x] Hx. subst text. cbn in *.
    rewrite !string_length_app. lia.
Qed.

(** The line that slog's JSON handler writes readsBack back as the members it
    was made from. *)
Theorem parse_compact_line (v : value) : parse (compact v +:+ newline) = Some v.
Proof.
  unfold parse. rewrite parseValue_compact; [reflexivity| |reflexivity].
  pose proof (nodes_le_length v). rewrite string_length_app. lia.
Qed.

Lemma Unmarshal_compact_line (m : list (string * value)) :
  Unmarshal (compact (Obj m) +:+ newline) = Ok (Some (assignAll toMaps m [])).
Proof. unfold Unmarshal. by rewrite parse_compact_line. Qed.





(** A hook that only filters keeps clear of the well-known keys; so do
    the hook that changes nothing and the hook that hides passwords. *)
Lemma filtering_keepsClear (next : option ReplaceAttrFn) :
  filtering next -> keepsClear next.
Proof.
  destruct next as [f|]; [|done]. intros Hf groups a Hk Hg.
  destruct (Hf groups a) as [->| ->]; [|by split].
  split; [exact Hk|by apply quiet_plain].
Qed.




(** * Further properties *)

(** ** How [Handle] ends *)

(** The ways through [Handle], by what [computeAttrs], the marshalling and
    the opening of the log file give. *)
Lemma Handle_cases {H : Type} `{!slog.Handler H}
    (this : flarelog.Handler H) (rec : Record) (wd : World) :
  (flarelog.computeAttrs this rec wd = None
   /\ flarelog.Handle this rec wd = (wd, noReturn))
  \/ (exists wd2 e,
        flarelog.computeAttrs this rec wd = Some (wd2, Err e)
        /\ flarelog.Handle this rec wd = (wd2, returns (Some e)))
  \/ (exists wd2 attrs e,
        flarelog.computeAttrs this rec wd = Some (wd2, Ok attrs)
        /\ json.MarshalIndent attrs = Err e
        /\ flarelog.Handle this rec wd
           = (wd2, returns (Some (Errorf "error when marshaling attrs: " e))))
  \/ (exists wd2 attrs blob err,
        flarelog.computeAttrs this rec wd = Some (wd2, Ok attrs)
        /\ json.MarshalIndent attrs = Ok blob
        /\ openError wd2 = Some err
        /\ flarelog.Handle this rec wd
           = (log.Println (Error err)
                (Println (fst (flarelog.composeLines
                                 (flarelog.renderFields this rec) blob)) wd2),
              exits 1))
  \/ (exists wd2 attrs blob,
        flarelog.computeAttrs this rec wd = Some (wd2, Ok attrs)
        /\ json.MarshalIndent attrs = Ok blob
        /\ openError wd2 = None
        /\ flarelog.Handle this rec wd
           = (log.Println (snd (flarelog.composeLines
                                  (flarelog.renderFields this rec) blob))
                (log.SetFlags 23
                   (log.SetOutput "./logs.log"
                      (Println (fst (flarelog.composeLines
                                       (flarelog.renderFields this rec) blob))
                         wd2))),
              returns None)).
Proof.
  unfold flarelog.Handle.
  destruct (flarelog.computeAttrs this rec wd) as [[wd2 [attrs|e]]|];
    [|right; left; eauto|left; eauto].
  destruct (json.MarshalIndent attrs) as [blob|e] eqn:HM;
    [|right; right; left; eauto 6].
  destruct (flarelog.composeLines _ _) as [styledOut outForLog] eqn:HC.
  unfold flarelog.openLogFile, flarelog.Fatal.
  change (openError (Println styledOut wd2)) with (openError wd2).
  destruct (openError wd2) as [err|] eqn:HO.
  - right; right; right; left. exists wd2, attrs, blob, err. by rewrite HC.
  - right; right; right; right. exists wd2, attrs, blob. by rewrite HC.
Qed.

(** What [computeAttrs] leaves of the world: only buffers and mutexes
    change, and the handler is ready again. *)
Lemma computeAttrs_world {H : Type} `{!slog.Handler H}
    (this : flarelog.Handler H) (rec : Record) (wd wd' : World)
    (res : result json.Map) :
  flarelog.computeAttrs this rec wd = Some (wd', res) ->
  held (flarelog.m this) wd = false
  /\ ready this wd'
  /\ stdout wd' = stdout wd /\ stderr wd' = stderr wd /\ logFile wd' = logFile wd
  /\ logOutput wd' = logOutput wd /\ logFlags wd' = logFlags wd
  /\ openError wd' = openError wd.
Proof.
  intros Hc.
  destruct (computeAttrs_exit _ _ _ _ _ Hc) as (wd1 & bs & e & HL & _ & ->).
  destruct (Lock_Some _ _ _ HL) as (Hfree & _ & _).
  destruct (resetAndUnlock_spec this (setBufs bs wd1)) as (Hb & Hm).
  unfold Lock in HL. rewrite Hfree in HL. injection HL as <-.
  unfold ready. repeat split; done.
Qed.


(** X1. When [Handle] returns nil, the log file could be opened; exactly
    one line was printed on standard output and exactly one was written to
    the log file, the styled and the plain line made from the same
    marshalled attributes; standard error is untouched; and the standard
    logger of package [log] now writes to [./logs.log] with the flags
    [LstdFlags|Lshortfile|Lmicroseconds]. *)
Theorem Handle_nil_effects {H : Type} `{!slog.Handler H}
    (this : flarelog.Handler H) (rec : Record) (wd wd' : World) :
  flarelog.Handle this rec wd = (wd', returns None) ->
  openError wd = None
  /\ (exists attrs blob,
        json.MarshalIndent attrs = Ok blob
        /\ stdout wd'
           = stdout wd
             ++ [fst (flarelog.composeLines (flarelog.renderFields this rec) blob)]
        /\ logFile wd'
           = logFile wd
             ++ [snd (flarelog.composeLines (flarelog.renderFields this rec) blob)])
  /\ stderr wd' = stderr wd
  /\ logOutput wd' = Some "./logs.log"
  /\ logFlags wd' = 23.
Proof.
  intros Hh.
  destruct (Handle_cases this rec wd)
    as [[_ Hx]|[(wd2 & e & _ & Hx)|[(wd2 & attrs & e & _ & _ & Hx)
       |[(wd2 & attrs & blob & err & _ & _ & _ & Hx)
        |(wd2 & attrs & blob & Hc & HM & HO & Hx)]]]];
    rewrite Hx in Hh; try discriminate.
  injection Hh as <-.
  destruct (computeAttrs_world _ _ _ _ _ Hc)
    as (_ & _ & Hso & Hse & Hlf & _ & _ & Hoe).
  split; [congruence|]. split; [|by cbn].
  exists attrs, blob. cbn. by rewrite Hso, Hlf.
Qed.

Lemma Handle_nil_effects_witness :
  exists wd',
    @flarelog.Handle _ (JSONHandler_Handler 8) sampleHandler sampleRecord sampleStart
    = (wd', returns None)
    /\ logOutput wd' = Some "./logs.log" /\ logFlags wd' = 23.
Proof.
  destruct (@flarelog.Handle _ (JSONHandler_Handler 8) sampleHandler sampleRecord
              sampleStart) as [wd' [[e|]| |]] eqn:E;
    try (vm_compute in E; discriminate).
  exists wd'. split; [reflexivity|].
  destruct (@Handle_nil_effects _ (JSONHandler_Handler 8) _ _ _ _ E)
    as (_ & _ & _ & Ho & Hf).
  by split.
Defined.

(** X2. When [Handle] ends the process, the exit status is 1 and the cause
    is the error of opening the log file; the styled line of the record is
    already on standard output, while its plain line is written nowhere;
    the text of the error goes where the standard logger writes at that
    moment, standard error if no earlier call has redirected it and the log
    file otherwise; the logger's output and flags are left as they were. *)
Theorem Handle_exit_effects {H : Type} `{!slog.Handler H}
    (this : flarelog.Handler H) (rec : Record) (wd wd' : World) (code : Z) :
  flarelog.Handle this rec wd = (wd', exits code) ->
  code = 1
  /\ exists err attrs blob,
       openError wd = Some err
       /\ json.MarshalIndent attrs = Ok blob
       /\ stdout wd'
          = stdout wd
            ++ [fst (flarelog.composeLines (flarelog.renderFields this rec) blob)]
       /\ match logOutput wd with
          | None => stderr wd' = stderr wd ++ [Error err] /\ logFile wd' = logFile wd
          | Some _ => logFile wd' = logFile wd ++ [Error err] /\ stderr wd' = stderr wd
          end
       /\ logOutput wd' = logOutput wd
       /\ logFlags wd' = logFlags wd.
Proof.
  intros Hh.
  destruct (Handle_cases this rec wd)
    as [[_ Hx]|[(wd2 & e & _ & Hx)|[(wd2 & attrs & e & _ & _ & Hx)
       |[(wd2 & attrs & blob & err & Hc & HM & HO & Hx)
        |(wd2 & attrs & blob & _ & _ & _ & Hx)]]]];
    rewrite Hx in Hh; try discriminate.
  injection Hh as <- <-.
  destruct (computeAttrs_world _ _ _ _ _ Hc)
    as (_ & _ & Hso & Hse & Hlf & Hlo & Hfl & Hoe).
  split; [reflexivity|]. exists err, attrs, blob.
  split; [congruence|]. split; [exact HM|].
  unfold log.Println. cbn [logOutput Println]. rewrite <- Hlo.
  destruct (logOutput wd2); cbn; rewrite Hso, Hse, Hlf, Hfl; by repeat split.
Qed.

Lemma Handle_exit_effects_witness :
  exists wd',
    @flarelog.Handle _ (JSONHandler_Handler 8) sampleHandler sampleRecord lockedOut
    = (wd', exits 1)
    /\ stderr wd' = ["open ./logs.log: permission denied"]
    /\ logFile wd' = [].
Proof.
  destruct (@flarelog.Handle _ (JSONHandler_Handler 8) sampleHandler sampleRecord
              lockedOut) as [wd' [[e|]|code|]] eqn:E;
    try (vm_compute in E; discriminate).
  destruct (@Handle_exit_effects _ (JSONHandler_Handler 8) _ _ _ _ _ E)
    as (-> & err & attrs & blob & Herr & _ & _ & Hlog & _).
  exists wd'. split; [reflexivity|].
  injection Herr as <-. exact Hlog.
Defined.

(** X3. However [Handle] ends, by returning nil or an error or by ending
    the process, it found the mutex free and it leaves the handler ready:
    the buffer is empty and the mutex is free again, so that the next call
    on this handler, or on a handler derived from it, takes the mutex at
    once. *)
Theorem Handle_leaves_ready {H : Type} `{!slog.Handler H}
    (this : flarelog.Handler H) (rec : Record) (wd wd' : World) (end_ : outcome)
    (attrs : list Attr) (name : string) :
  flarelog.Handle this rec wd = (wd', end_) ->
  end_ <> noReturn ->
  held (flarelog.m this) wd = false
  /\ ready this wd'
  /\ ready (flarelog.WithAttrs this attrs) wd'
  /\ ready (flarelog.WithGroup this name) wd'
  /\ is_Some (Lock (flarelog.m this) wd').
Proof.
  intros Hh Hend.
  assert (exists wd2 res,
             flarelog.computeAttrs this rec wd = Some (wd2, res)
             /\ bufs wd' = bufs wd2 /\ mutexes wd' = mutexes wd2)
    as (wd2 & res & Hc & Hb & Hm).
  { destruct (Handle_cases this rec wd)
      as [[_ Hx]|[(wd2 & e & Hc & Hx)|[(wd2 & a & e & Hc & _ & Hx)
         |[(wd2 & a & blob & err & Hc & _ & _ & Hx)
          |(wd2 & a & blob & Hc & _ & _ & Hx)]]]];
      rewrite Hx in Hh; injection Hh as <- <-; try done;
      exists wd2; eexists; (split; [exact Hc|]); try done.
    unfold log.Println. cbn. by destruct (logOutput wd2). }
  destruct (computeAttrs_world _ _ _ _ _ Hc) as (Hfree & (Hm2 & Hb2) & _).
  assert (Hready : ready this wd').
  { unfold ready, held, bytes.Bytes in *. by rewrite Hb, Hm. }
  split; [exact Hfree|]. repeat split; try apply Hready.
  unfold Lock. destruct Hready as [-> _]. by eexists.
Qed.

Lemma Handle_leaves_ready_witness :
  exists wd' end_,
    @flarelog.Handle _ garbling garblingHandler sampleRecord sampleWorld
    = (wd', end_)
    /\ ready garblingHandler wd'.
Proof.
  destruct (@flarelog.Handle _ garbling garblingHandler sampleRecord sampleWorld)
    as [wd' end_] eqn:E.
  exists wd', end_. split; [reflexivity|].
  refine (proj1 (proj2 (@Handle_leaves_ready _ garbling garblingHandler sampleRecord
                          sampleWorld wd' end_ [] "" E _))).
  intros ->. vm_compute in E. discriminate.
Defined.

(** ** Handlers made by [NewHandler] and derived from them *)

Lemma derive_shares {H : Type} `{!slog.Handler H}
    (this : flarelog.Handler H) (steps : list derivation) :
  flarelog.b (derive this steps) = flarelog.b this
  /\ flarelog.m (derive this steps) = flarelog.m this
  /\ flarelog.r (derive this steps) = flarelog.r this.
Proof.
  revert this. induction steps as [|[attrs|name] steps IH]; intros this; [done| |].
  - change (derive this (bindAttrs attrs :: steps))
      with (derive (flarelog.WithAttrs this attrs) steps).
    by destruct (IH (flarelog.WithAttrs this attrs)) as (-> & -> & ->).
  - change (derive this (scopeGroup name :: steps))
      with (derive (flarelog.WithGroup this name) steps).
    by destruct (IH (flarelog.WithGroup this name)) as (-> & -> & ->).
Qed.

(** The JSON delegate of a derived handler has the writer and the options
    of the delegate it was derived from. *)
Lemma derive_delegate (depth : nat) (this : flarelog.Handler JSONHandler)
    (steps : list derivation) :
  w (flarelog.h (@derive _ (JSONHandler_Handler depth) this steps))
  = w (flarelog.h this)
  /\ opts (flarelog.h (@derive _ (JSONHandler_Handler depth) this steps))
     = opts (flarelog.h this).
Proof.
  set (impl := JSONHandler_Handler depth).
  revert this. induction steps as [|[attrs|name] steps IH]; intros this; [done| |].
  - change (derive this (bindAttrs attrs :: steps))
      with (derive (flarelog.WithAttrs this attrs) steps).
    destruct (IH (flarelog.WithAttrs this attrs)) as (-> & ->).
    cbn. unfold JSONHandler_WithAttrs. by destruct (allEmptyGroups attrs).
  - change (derive this (scopeGroup name :: steps))
      with (derive (flarelog.WithGroup this name) steps).
    by destruct (IH (flarelog.WithGroup this name)) as (-> & ->).
Qed.

(** What [computeAttrs] does to the store with the JSON delegate: the line
    is written to the delegate's writer, the handler's buffer is reset and
    the mutex is locked and unlocked. *)
Lemma computeAttrs_JSONHandler_store (depth : nat)
    (this : flarelog.Handler JSONHandler) (rec : Record) (wd wd' : World)
    (res : result json.Map) :
  @flarelog.computeAttrs _ (JSONHandler_Handler depth) this rec wd = Some (wd', res) ->
  exists text,
    bufs wd'
    = <[flarelog.b this := ""]>
        (<[w (flarelog.h this) := bytes.Bytes (bufs wd) (w (flarelog.h this)) +:+ text]>
           (bufs wd))
    /\ mutexes wd'
       = <[flarelog.m this := false]> (<[flarelog.m this := true]> (mutexes wd)).
Proof.
  unfold flarelog.computeAttrs, Lock.
  destruct (held (flarelog.m this) wd); [discriminate|]. cbn [mbind option_bind].
  change (slog.Handle (flarelog.h this) rec ?bs)
    with (JSONHandler_Handle depth (flarelog.h this) rec bs).
  unfold JSONHandler_Handle.
  destruct (members depth (flarelog.h this) rec) as [ms|]; [|discriminate].
  cbn [mbind option_bind bufs setBufs setMutexes].
  destruct (json.Unmarshal _); intros [= <- <-]; eexists; by split.
Qed.





(** X5. [Handle] on such a handler leaves the store as it found it: when
    the buffer exists and is empty and the mutex exists and is free, every
    buffer and every mutex of the store has after the call the contents it
    had before, however the call ends. *)
Theorem NewHandler_Handle_restores_store (depth : nat) (opts : option HandlerOptions)
    (wd0 : World) (steps : list derivation) (rec : Record) (wd : World) :
  let this :=
    @derive _ (JSONHandler_Handler depth) (fst (flarelog.NewHandler opts wd0)) steps in
  bufs wd !! flarelog.b this = Some "" ->
  mutexes wd !! flarelog.m this = Some false ->
  let wd' := fst (@flarelog.Handle _ (JSONHandler_Handler depth) this rec wd) in
  bufs wd' = bufs wd /\ mutexes wd' = mutexes wd.
Proof.
  intros this Hb Hm wd'. subst wd'.
  assert (Hw : w (flarelog.h this) = flarelog.b this).
  { subst this. destruct (derive_delegate depth (fst (flarelog.NewHandler opts wd0)) steps)
      as (-> & _).
    by destruct (@derive_shares _ (JSONHandler_Handler depth)
                   (fst (flarelog.NewHandler opts wd0)) steps) as (-> & _). }
  assert (Hstore : forall wd2 res,
             @flarelog.computeAttrs _ (JSONHandler_Handler depth) this rec wd
             = Some (wd2, res) ->
             bufs wd2 = bufs wd /\ mutexes wd2 = mutexes wd).
  { intros wd2 res Hc.
    apply computeAttrs_JSONHandler_store in Hc as (text & -> & ->).
    rewrite Hw, !insert_insert_eq. split; by apply insert_id. }
  destruct (@Handle_cases _ (JSONHandler_Handler depth) this rec wd)
    as [[_ Hx]|[(wd2 & e & Hc & Hx)|[(wd2 & a & e & Hc & _ & Hx)
       |[(wd2 & a & blob & err & Hc & _ & _ & Hx)
        |(wd2 & a & blob & Hc & _ & _ & Hx)]]]];
    rewrite Hx; cbn [fst]; try done; try (by eapply Hstore).
  - unfold log.Println. cbn [logOutput Println].
    destruct (logOutput wd2); cbn; by eapply Hstore.
  - cbn. by eapply Hstore.
Qed.

Lemma NewHandler_Handle_restores_store_witness :
  bufs (fst (@flarelog.Handle _ (JSONHandler_Handler 8) sampleHandler failedRecord
               sampleStart)) = bufs sampleStart
  /\ mutexes (fst (@flarelog.Handle _ (JSONHandler_Handler 8) sampleHandler
                     failedRecord sampleStart)) = mutexes sampleStart.
Proof.
  apply (NewHandler_Handle_restores_store 8 None sampleWorld [] failedRecord
           sampleStart); reflexivity.
Defined.

(** X6. [NewHandler] allocates a buffer and a mutex that were not in the
    store and leaves the rest of the world as it was; the new handler is
    ready and its delegate writes to its buffer.  Two handlers made by two
    calls of [NewHandler] therefore share neither buffer nor mutex, and
    making the second leaves the first ready and every buffer and mutex
    that existed as it was. *)
Theorem NewHandler_allocates_fresh (o1 o2 : option HandlerOptions) (wd : World) :
  let h1 := fst (flarelog.NewHandler o1 wd) in
  let wd1 := snd (flarelog.NewHandler o1 wd) in
  let h2 := fst (flarelog.NewHandler o2 wd1) in
  let wd2 := snd (flarelog.NewHandler o2 wd1) in
  bufs wd !! flarelog.b h1 = None
  /\ mutexes wd !! flarelog.m h1 = None
  /\ bufs wd1 = <[flarelog.b h1 := ""]> (bufs wd)
  /\ mutexes wd1 = <[flarelog.m h1 := false]> (mutexes wd)
  /\ (stdout wd1, stderr wd1, logFile wd1, logOutput wd1, logFlags wd1, openError wd1)
     = (stdout wd, stderr wd, logFile wd, logOutput wd, logFlags wd, openError wd)
  /\ w (flarelog.h h1) = flarelog.b h1
  /\ ready h1 wd1
  /\ flarelog.b h1 <> flarelog.b h2
  /\ flarelog.m h1 <> flarelog.m h2
  /\ ready h1 wd2 /\ ready h2 wd2
  /\ bufs wd ⊆ bufs wd2 /\ mutexes wd ⊆ mutexes wd2.
Proof.
  intros h1 wd1 h2 wd2.
  assert (Hfb : forall w0 : World, bufs w0 !! fresh (dom (bufs w0)) = None)
    by (intros w0; apply not_elem_of_dom, is_fresh).
  assert (Hfm : forall w0 : World, mutexes w0 !! fresh (dom (mutexes w0)) = None)
    by (intros w0; apply not_elem_of_dom, is_fresh).
  assert (Hb12 : flarelog.b h1 <> flarelog.b h2).
  { intros Heq. pose proof (Hfb wd1) as Hn.
    change (fresh (dom (bufs wd1))) with (flarelog.b h2) in Hn.
    rewrite <- Heq in Hn. cbn in Hn. by rewrite lookup_insert_eq in Hn. }
  assert (Hm12 : flarelog.m h1 <> flarelog.m h2).
  { intros Heq. pose proof (Hfm wd1) as Hn.
    change (fresh (dom (mutexes wd1))) with (flarelog.m h2) in Hn.
    rewrite <- Heq in Hn. cbn in Hn. by rewrite lookup_insert_eq in Hn. }
  split; [exact (Hfb wd)|]. split; [exact (Hfm wd)|].
  do 4 (split; [reflexivity|]).
  split; [unfold ready, held, bytes.Bytes; cbn; by rewrite !lookup_insert_eq|].
  split; [exact Hb12|]. split; [exact Hm12|].
  split; [|split;
    [unfold ready, held, bytes.Bytes; cbn; by rewrite !lookup_insert_eq|]].
  - unfold ready, held, bytes.Bytes.
    change (mutexes wd2)
      with (<[flarelog.m h2 := false]> (<[flarelog.m h1 := false]> (mutexes wd))).
    change (bufs wd2)
      with (<[flarelog.b h2 := ""]> (<[flarelog.b h1 := ""]> (bufs wd))).
    rewrite (lookup_insert_ne _ (flarelog.m h2) (flarelog.m h1)) by done.
    rewrite (lookup_insert_ne _ (flarelog.b h2) (flarelog.b h1)) by done.
    by rewrite !lookup_insert_eq.
  - split.
    + trans (bufs wd1); apply insert_subseteq; [exact (Hfb wd)|exact (Hfb wd1)].
    + trans (mutexes wd1); apply insert_subseteq; [exact (Hfm wd)|exact (Hfm wd1)].
Qed.

(** ** The styled line for every rewrite hook *)

(** X7. The styled line of a record, for every rewrite hook: the time in
    light gray, the level text with a colon in the colour of its band, and
    the message in white, in this order and each followed by a space, and
    then the marshalled attributes in dark gray.  A field is left out
    exactly when the hook answered with the empty attribute for it; a
    field whose text the hook made empty is still shown, as an empty
    coloured text. *)
Theorem styled_line_fields {H : Type} (this : flarelog.Handler H) (rec : Record)
    (attrs : json.Map) (blob : string) :
  json.MarshalIndent attrs = Ok blob ->
  let t := flarelog.rewrite this
             (mkAttr TimeKey (StringValue (Format (Time_ rec) flarelog.timeFormat))) in
  let l := flarelog.rewrite this (mkAttr LevelKey (AnyLevel (Level_ rec))) in
  let m := flarelog.rewrite this (mkAttr MessageKey (StringValue (Message rec))) in
  exists c,
    bandColor (Level_ rec) = Some c
    /\ fst (flarelog.composeLines (flarelog.renderFields this rec) blob)
       = shown t (flarelog.colorize flarelog.lightGray (Value_String (Val t)))
         +:+ shown l (flarelog.colorize c (Value_String (Val l) +:+ ":"))
         +:+ shown m (flarelog.colorize flarelog.white (Value_String (Val m)))
         +:+ flarelog.colorize flarelog.darkGray blob.
Proof.
  intros HM t l m.
  apply MarshalIndent_nonempty in HM. apply Nat.ltb_lt in HM.
  destruct (levelStyle_bandColor (Level_ rec) (Value_String (Val l) +:+ ":"))
    as (c & Hc & Hstyle).
  exists c. split; [exact Hc|].
  unfold flarelog.composeLines, flarelog.renderFields, shown.
  fold t l m. rewrite HM, Hstyle.
  destruct (Attr_Equal t emptyAttr), (Attr_Equal l emptyAttr),
    (Attr_Equal m emptyAttr);
    cbn [negb flarelog.timestamp flarelog.level flarelog.msg fst];
    rewrite ?colorize_nonempty; cbn [String.length Nat.ltb Nat.leb fst];
    rewrite ?string_app_assoc; reflexivity.
Qed.

Lemma styled_line_fields_witness :
  fst (flarelog.composeLines (flarelog.renderFields sampleHandler failedRecord)
         "{}")
  = flarelog.colorize flarelog.lightGray "[12:34:56.789]" +:+ " "
    +:+ flarelog.colorize flarelog.lightRed "ERROR:" +:+ " "
    +:+ flarelog.colorize flarelog.white "request failed" +:+ " "
    +:+ flarelog.colorize flarelog.darkGray "{}".
Proof.
  destruct (styled_line_fields sampleHandler failedRecord (Some []) "{}"
              eq_refl) as (c & Hc & ->).
  injection Hc as <-. reflexivity.
Defined.

(** ** Bound attributes and reserved keys *)

(** [Handle] depends on the handler and the record only through the
    hook, the buffer, the mutex, the time, level and message of the record,
    and what the delegate does with the record. *)
Lemma Handle_ext {H : Type} `{!slog.Handler H}
    (this this' : flarelog.Handler H) (rec rec' : Record) (wd : World) :
  flarelog.r this' = flarelog.r this ->
  flarelog.b this' = flarelog.b this ->
  flarelog.m this' = flarelog.m this ->
  Time_ rec' = Time_ rec -> Level_ rec' = Level_ rec -> Message rec' = Message rec ->
  (forall bs, slog.Handle (flarelog.h this') rec' bs
              = slog.Handle (flarelog.h this) rec bs) ->
  flarelog.Handle this' rec' wd = flarelog.Handle this rec wd.
Proof.
  intros Hr Hb Hm Ht Hl Hmsg Hh.
  unfold flarelog.Handle, flarelog.computeAttrs, flarelog.resetAndUnlock,
    flarelog.renderFields, flarelog.rewrite.
  rewrite Hr, Hb, Hm, Ht, Hl, Hmsg.
  destruct (Lock (flarelog.m this) wd) as [wd1|]; [|reflexivity].
  cbn [mbind option_bind]. by rewrite Hh.
Qed.

(** Appending two lists of attributes one after the other. *)
Lemma appendAttrsWith_app
    (f : Attr -> option (bool * list (string * json.value))) (l1 l2 : list Attr) :
  appendAttrsWith f (l1 ++ l2)
  = match appendAttrsWith f l1, appendAttrsWith f l2 with
    | Some (b1, m1), Some (b2, m2) => Some (b1 || b2, m1 ++ m2)
    | _, _ => None
    end.
Proof.
  induction l1 as [|a l1 IH]; cbn [app appendAttrsWith].
  - by destruct (appendAttrsWith f l2) as [[b2 m2]|].
  - destruct (f a) as [[b m]|]; cbn [mbind option_bind]; [|reflexivity].
    rewrite IH.
    destruct (appendAttrsWith f l1) as [[b1 m1]|]; cbn [mbind option_bind];
      [|reflexivity].
    destruct (appendAttrsWith f l2) as [[b2 m2]|]; cbn [mbind option_bind];
      [|reflexivity].
    by rewrite orb_assoc, app_assoc.
Qed.

Lemma nonBuiltIns_bound_last (rep : option ReplaceAttrFn) (depth : nat)
    (bound : list groupOrAttrs) (groups : list string) (l recordAttrs : list Attr) :
  nonBuiltIns rep depth groups (bound ++ [boundAttrs l]) recordAttrs
  = nonBuiltIns rep depth groups bound (l ++ recordAttrs).
Proof.
  revert groups. induction bound as [|[name|l0] bound IH]; intros groups;
    cbn [app nonBuiltIns].
  - unfold appendAttrs. rewrite appendAttrsWith_app.
    destruct (appendAttrsWith _ l) as [[b1 m1]|]; cbn [mbind option_bind];
      [|reflexivity].
    by destruct (appendAttrsWith _ recordAttrs) as [[b2 m2]|].
  - by rewrite IH.
  - by rewrite IH.
Qed.

(** X8. Attributes bound with [WithAttrs] are written as if they came
    first among the attributes of every record: [Handle] on the derived
    handler does what [Handle] on the original handler does for the record
    with the bound attributes put in front of its own.  This holds for an
    empty list and for every list that does not consist of empty groups
    only. *)
Theorem WithAttrs_Handle (depth : nat) (this : flarelog.Handler JSONHandler)
    (attrs : list Attr) (rec : Record) (wd : World) :
  attrs = [] \/ allEmptyGroups attrs = false ->
  @flarelog.Handle _ (JSONHandler_Handler depth)
     (@flarelog.WithAttrs _ (JSONHandler_Handler depth) this attrs) rec wd
  = @flarelog.Handle _ (JSONHandler_Handler depth) this
      (setAttrs rec (attrs ++ Attrs rec)) wd.
Proof.
  intros Hattrs. apply Handle_ext; try reflexivity.
  intros bs.
  change (JSONHandler_Handle depth (JSONHandler_WithAttrs (flarelog.h this) attrs)
            rec bs
          = JSONHandler_Handle depth (flarelog.h this)
              (setAttrs rec (attrs ++ Attrs rec)) bs).
  unfold JSONHandler_Handle, JSONHandler_WithAttrs.
  destruct Hattrs as [->| ->]; [by destruct rec|].
  unfold members.
  cbn [opts w goas setAttrs Time_ Level_ Message source Attrs].
  by rewrite nonBuiltIns_bound_last.
Qed.

Lemma WithAttrs_Handle_witness :
  @flarelog.Handle _ (JSONHandler_Handler 8)
     (@flarelog.WithAttrs _ (JSONHandler_Handler 8) sampleHandler
        [mkAttr "service" (StringValue "api")]) failedRecord sampleStart
  = @flarelog.Handle _ (JSONHandler_Handler 8) sampleHandler
      (setAttrs failedRecord
         [mkAttr "service" (StringValue "api"); mkAttr "code" (Int64Value 500)])
      sampleStart.
Proof.
  apply (WithAttrs_Handle 8 sampleHandler [mkAttr "service" (StringValue "api")]
           failedRecord sampleStart).
  right. reflexivity.
Defined.

(** The wrapped hook drops an attribute that is not a group and has a
    well-known key; the caller's hook is not consulted. *)
Lemma appendAttr_dropped (next : option ReplaceAttrFn) (d : nat)
    (groups : list string) (a : Attr) :
  passes a = false ->
  appendAttr (Some (flarelog.suppressDefaults next)) (S d) groups a
  = Some (false, []).
Proof.
  unfold passes. intros [Hg Hk%negb_false_iff]%orb_false_iff.
  cbn [appendAttr]. by rewrite Hg, suppressDefaults_spec, Hk.
Qed.

Lemma appendAttrs_passes (next : option ReplaceAttrFn) (d : nat)
    (groups : list string) (l : list Attr) :
  appendAttrs (Some (flarelog.suppressDefaults next)) (S d) groups (List.filter passes l)
  = appendAttrs (Some (flarelog.suppressDefaults next)) (S d) groups l.
Proof.
  unfold appendAttrs. induction l as [|a l IH]; [reflexivity|].
  cbn [List.filter]. destruct (passes a) eqn:Ha.
  - cbn [appendAttrsWith]. by rewrite IH.
  - rewrite IH. cbn [appendAttrsWith]. rewrite appendAttr_dropped by exact Ha.
    cbn [mbind option_bind].
    by destruct (appendAttrsWith _ l) as [[b2 m2]|].
Qed.

Lemma nonBuiltIns_passes (next : option ReplaceAttrFn) (d : nat)
    (bound : list groupOrAttrs) (groups : list string) (l : list Attr) :
  nonBuiltIns (Some (flarelog.suppressDefaults next)) (S d) groups bound
    (List.filter passes l)
  = nonBuiltIns (Some (flarelog.suppressDefaults next)) (S d) groups bound l.
Proof.
  revert groups. induction bound as [|[name|l0] bound IH]; intros groups;
    cbn [nonBuiltIns].
  - apply appendAttrs_passes.
  - by rewrite IH.
  - by rewrite IH.
Qed.

Lemma members_passes (next : option ReplaceAttrFn) (depth : nat) (hd : JSONHandler)
    (rec : Record) :
  ReplaceAttr (opts hd) = Some (flarelog.suppressDefaults next) ->
  members depth hd (setAttrs rec (List.filter passes (Attrs rec)))
  = members depth hd rec.
Proof.
  intros Hrep. unfold members. rewrite Hrep.
  cbn [setAttrs Time_ Level_ Message source Attrs].
  destruct depth as [|d]; [|by rewrite nonBuiltIns_passes].
  unfold builtIn at 2 3. cbn [appendAttr].
  by destruct (if Time_IsZero (Time_ rec) then _ else _) as [[b1 m1]|].
Qed.

Lemma NewHandler_hook (opts : option HandlerOptions) (wd0 : World) :
  ReplaceAttr (slog.opts (flarelog.h (fst (flarelog.NewHandler opts wd0))))
  = Some (flarelog.suppressDefaults (ReplaceAttr (default zeroOptions opts))).
Proof. by destruct opts. Qed.

(** X9. A handler made by [NewHandler], or derived from one, ignores every
    attribute of a record that is not a group and whose key is [time],
    [level] or [msg]: the call does what it does for the record without
    these attributes, whatever the caller's hook is. *)
Theorem Handle_drops_reserved_keys (depth : nat) (opts : option HandlerOptions)
    (wd0 : World) (steps : list derivation) (rec : Record) (wd : World) :
  let this :=
    @derive _ (JSONHandler_Handler depth) (fst (flarelog.NewHandler opts wd0)) steps in
  @flarelog.Handle _ (JSONHandler_Handler depth) this
    (setAttrs rec (List.filter passes (Attrs rec))) wd
  = @flarelog.Handle _ (JSONHandler_Handler depth) this rec wd.
Proof.
  intros this. apply Handle_ext; try reflexivity. intros bs.
  change (JSONHandler_Handle depth (flarelog.h this)
            (setAttrs rec (List.filter passes (Attrs rec))) bs
          = JSONHandler_Handle depth (flarelog.h this) rec bs).
  unfold JSONHandler_Handle. erewrite members_passes; [reflexivity|].
  subst this.
  destruct (derive_delegate depth (fst (flarelog.NewHandler opts wd0)) steps)
    as (_ & ->).
  apply NewHandler_hook.
Qed.

(** X10. [Enabled] of a handler made by [NewHandler], and of every handler
    derived from it, compares the level with the [Level] of the options
    that [NewHandler] was given, and with [LevelInfo] when the options are
    nil or have no [Level]. *)
Theorem NewHandler_Enabled (depth : nat) (opts : option HandlerOptions) (wd0 : World)
    (steps : list derivation) (level : Level) :
  let this :=
    @derive _ (JSONHandler_Handler depth) (fst (flarelog.NewHandler opts wd0)) steps in
  @flarelog.Enabled _ (JSONHandler_Handler depth) this level
  = (default LevelInfo (opts ≫= Level_opt) <=? level).
Proof.
  intros this. subst this. unfold flarelog.Enabled.
  change (slog.Enabled ?hd level) with (JSONHandler_Enabled hd level).
  unfold JSONHandler_Enabled.
  destruct (derive_delegate depth (fst (flarelog.NewHandler opts wd0)) steps)
    as (_ & ->).
  by destruct opts.
Qed.

(** ** [Handle] returns *)




















(** ** The mapping returned by [computeAttrs] *)





(** ** Colour codes stay out of the log file *)

Lemma plain_app (x y : string) : plain (x +:+ y) = plain x && plain y.
Proof.
  induction x as [|c x IH]; [reflexivity|].
  change (plain (String c (x +:+ y)) = plain (String c x) && plain y).
  cbn [plain]. by rewrite IH, andb_assoc.
Qed.

Lemma plain_string_of_uint (u : Decimal.uint) : plain (NilEmpty.string_of_uint u) = true.
Proof. induction u; cbn [NilEmpty.string_of_uint plain]; by rewrite ?IHu. Qed.

Lemma plain_Itoa (n : Z) : plain (Itoa n) = true.
Proof.
  unfold Itoa, NilZero.string_of_int, NilZero.string_of_uint.
  destruct (Z.to_int n) as [u|u]; destruct u; try reflexivity;
    cbn [plain]; rewrite ?plain_string_of_uint;
    try apply (plain_string_of_uint (D0 _)); try reflexivity.
Qed.

Lemma plain_escapeByte (html short : bool) (c : ascii) :
  plain (escapeByte html short c) = true.
Proof.
  destruct html, short, c as [[] [] [] [] [] [] [] []]; reflexivity.
Qed.

Lemma plain_quote (html short : bool) (s : string) :
  plain (quote html short s) = true.
Proof.
  unfold quote.
  change (String dquote (escape html short s) +:+ String dquote "")
    with (String dquote (escape html short s +:+ String dquote "")).
  cbn [plain]. rewrite plain_app.
  induction s as [|c s IH]; [reflexivity|].
  cbn [escape]. by rewrite plain_app, plain_escapeByte.
Qed.

Lemma plain_spaces (n : nat) : plain (spaces n) = true.
Proof. induction n as [|n IH]; [reflexivity|]. cbn [spaces]. by rewrite plain_app, IH. Qed.

(** Marshalled text has no ESC byte: control bytes in strings are written
    as [\u00XX]. *)
Lemma plain_indented (v : value) : forall d, plain (indented d v) = true.
Proof.
  induction v as [|b|n|s|l IH|m IH] using value_ind'; intros d.
  - reflexivity.
  - by destruct b.
  - apply plain_Itoa.
  - apply plain_quote.
  - destruct l as [|x l]; [reflexivity|].
    cbn [indented]. rewrite !plain_app, plain_spaces.
    change (plain "[") with true. change (plain newline) with true.
    change (plain "]") with true. rewrite !andb_true_r. cbn [andb].
    revert x IH. induction l as [|y l IHl]; intros x IH;
      inversion IH as [|? ? Hx Hl]; subst.
    + by rewrite !plain_app, plain_spaces, Hx.
    + rewrite !plain_app, plain_spaces, Hx. cbn [andb plain].
      change (negb (Ascii.eqb "," flarelog.ESC)) with true.
      change (negb (Ascii.eqb "010" flarelog.ESC)) with true.
      cbn [andb]. by apply IHl.
  - destruct m as [|[k x] m]; [reflexivity|].
    cbn [indented]. rewrite !plain_app, plain_spaces.
    change (plain "{") with true. change (plain newline) with true.
    change (plain "}") with true. rewrite !andb_true_r. cbn [andb].
    revert k x IH. induction m as [|[k' y] m IHm]; intros k x IH;
      inversion IH as [|? ? Hx Hm]; subst; cbn [snd] in Hx.
    + by rewrite !plain_app, plain_spaces, plain_quote, Hx.
    + rewrite !plain_app, plain_spaces, plain_quote, Hx. cbn [andb plain].
      change (negb (Ascii.eqb "," flarelog.ESC)) with true.
      change (negb (Ascii.eqb "010" flarelog.ESC)) with true.
      change (negb (Ascii.eqb ":" flarelog.ESC)) with true.
      change (negb (Ascii.eqb " " flarelog.ESC)) with true.
      cbn [andb]. by apply IHm.
Qed.

Lemma plain_MarshalIndent (attrs : json.Map) (blob : string) :
  json.MarshalIndent attrs = Ok blob -> plain blob = true.
Proof.
  destruct attrs as [m|]; unfold json.MarshalIndent; intros Heq.
  - assert (blob = indented 0 (sortKeys (Obj m))) as -> by congruence.
    apply plain_indented.
  - by injection Heq as <-.
Qed.

Lemma plain_Level_String (l : Level) : plain (Level_String l) = true.
Proof.
  unfold Level_String, levelStr.
  repeat case_match; rewrite ?plain_app, ?plain_Itoa; reflexivity.
Qed.

Lemma plain_colorize (c : Z) (v : string) : plain (flarelog.colorize c v) = false.
Proof. reflexivity. Qed.

Lemma composeLines_styled_end (f : flarelog.fields) (blob : string) :
  (0 <? String.length blob)%nat = true ->
  exists pre,
    fst (flarelog.composeLines f blob)
    = pre +:+ flarelog.colorize flarelog.darkGray blob.
Proof.
  intros Hblob. unfold flarelog.composeLines. rewrite Hblob. cbn [fst].
  by eexists.
Qed.

(** X13. When [Handle] returns nil, the line written to the log file has
    no ESC byte, and so no colour code, as long as the texts of the level
    and of the message, as the rewrite hook left them, have none; the
    attributes never bring one in, since [json.MarshalIndent] escapes
    control bytes.  The line printed on standard output always has
    one. *)
Theorem log_file_line_plain {H : Type} `{!slog.Handler H}
    (this : flarelog.Handler H) (rec : Record) (wd wd' : World) :
  flarelog.Handle this rec wd = (wd', returns None) ->
  plain (Value_String
           (Val (flarelog.rewrite this (mkAttr LevelKey (AnyLevel (Level_ rec))))))
  = true ->
  plain (Value_String
           (Val (flarelog.rewrite this (mkAttr MessageKey (StringValue (Message rec))))))
  = true ->
  exists styled line,
    stdout wd' = stdout wd ++ [styled]
    /\ logFile wd' = logFile wd ++ [line]
    /\ plain line = true
    /\ plain styled = false.
Proof.
  intros Hh Hlevel Hmsg.
  destruct (Handle_cases this rec wd)
    as [[_ Hx]|[(wd2 & e & _ & Hx)|[(wd2 & attrs & e & _ & _ & Hx)
       |[(wd2 & attrs & blob & err & _ & _ & _ & Hx)
        |(wd2 & attrs & blob & Hc & HM & HO & Hx)]]]];
    rewrite Hx in Hh; try discriminate.
  injection Hh as <-.
  destruct (computeAttrs_world _ _ _ _ _ Hc) as (_ & _ & Hso & _ & Hlf & _).
  do 2 eexists. cbn. rewrite Hso, Hlf. do 2 (split; [reflexivity|]).
  pose proof (MarshalIndent_nonempty _ _ HM) as Hlen%Nat.ltb_lt.
  split.
  - rewrite composeLines_plain, Hlen, plain_app, (plain_MarshalIndent _ _ HM).
    rewrite andb_true_r. unfold flarelog.renderFields.
    destruct (negb (Attr_Equal (flarelog.rewrite this (mkAttr LevelKey _)) emptyAttr));
      cbn [flarelog.outForLog]; rewrite !plain_app, ?Hlevel, Hmsg; reflexivity.
  - destruct (composeLines_styled_end (flarelog.renderFields this rec) blob Hlen)
      as (pre & ->).
    rewrite plain_app, plain_colorize. apply andb_false_r.
Qed.

Lemma log_file_line_plain_witness :
  exists wd' styled line,
    @flarelog.Handle _ (JSONHandler_Handler 8) sampleHandler failedRecord sampleStart
    = (wd', returns None)
    /\ stdout wd' = [styled] /\ logFile wd' = [line]
    /\ plain line = true /\ plain styled = false.
Proof.
  destruct (@flarelog.Handle _ (JSONHandler_Handler 8) sampleHandler failedRecord
              sampleStart) as [wd' [[e|]| |]] eqn:E;
    try (vm_compute in E; discriminate).
  destruct (@log_file_line_plain _ (JSONHandler_Handler 8) _ _ _ _ E
              (plain_Level_String _) eq_refl)
    as (styled & line & Hout & Hfile & Hline & Hstyled).
  exists wd', styled, line. by repeat split.
Defined.

(** ** The order of the attributes *)

Lemma compare_Lt_trans (a b c : string) :
  String.compare a b = Lt -> String.compare b c = Lt -> String.compare a c = Lt.
Proof.
  intros Hab Hbc. apply String_as_OT.cmp_lt.
  eapply String_as_OT.lt_trans; apply String_as_OT.cmp_lt; eassumption.
Qed.

Lemma compare_Gt_Lt (a b : string) : String.compare a b = Gt -> String.compare b a = Lt.
Proof. intros H. rewrite String.compare_antisym, H. reflexivity. Qed.

Lemma compare_Lt_Gt (a b : string) : String.compare a b = Lt -> String.compare b a = Gt.
Proof. intros H. rewrite String.compare_antisym, H. reflexivity. Qed.

Lemma compare_refl (a : string) : String.compare a a = Eq.
Proof.
  pose proof (String.compare_antisym a a) as H.
  destruct (String.compare a a); [reflexivity|discriminate..].
Qed.

Ltac order_strings :=
  repeat match goal with
         | H : String.compare ?a ?b = Eq |- _ =>
             apply String.compare_eq_iff in H; subst
         | H : String.compare ?a ?b = Gt |- _ => apply compare_Gt_Lt in H
         end;
  repeat match goal with
         | H1 : String.compare ?a ?b = Lt, H2 : String.compare ?b ?c = Lt |- _ =>
             lazymatch goal with
             | _ : String.compare a c = Lt |- _ => fail
             | _ => pose proof (compare_Lt_trans a b c H1 H2)
             end
         end;
  try match goal with
      | H : String.compare ?a ?a = Lt |- _ =>
          rewrite compare_refl in H; discriminate
      end;
  try congruence.

(** Assignments to different keys of a map commute. *)
Lemma mapSet_comm (k1 k2 : string) (x1 x2 : value) (m : list (string * value)) :
  k1 <> k2 ->
  mapSet k1 x1 (mapSet k2 x2 m) = mapSet k2 x2 (mapSet k1 x1 m).
Proof.
  intros Hne. induction m as [|[k0 x0] m IH]; cbn [mapSet].
  - destruct (String.compare k1 k2) eqn:H12; destruct (String.compare k2 k1) eqn:H21;
      try reflexivity; order_strings.
  - destruct (String.compare k2 k0) eqn:H20; destruct (String.compare k1 k0) eqn:H10;
      cbn [mapSet]; rewrite ?H20, ?H10;
      try (destruct (String.compare k1 k2) eqn:H12);
      try (destruct (String.compare k2 k1) eqn:H21);
      try (by rewrite IH); try reflexivity; order_strings.
Qed.

(** Members with distinct names give the same map in whatever order they
    are assigned. *)
Lemma assignAll_Permutation (convert : value -> value) (m m' : list (string * value)) :
  m ≡ₚ m' ->
  NoDup (List.map fst m) ->
  forall acc, assignAll convert m acc = assignAll convert m' acc.
Proof.
  induction 1 as [|[k x] m m' Hp IH|[k1 x1] [k2 x2] m|m m' m'' Hp1 IH1 Hp2 IH2];
    intros Hnd acc.
  - reflexivity.
  - cbn [assignAll]. apply IH. by inversion Hnd.
  - cbn [assignAll]. rewrite mapSet_comm; [reflexivity|].
    cbn in Hnd. inversion Hnd as [|? ? Hin _]; subst.
    intros ->. apply Hin. by left.
  - rewrite IH1 by exact Hnd. apply IH2.
    assert (Hmap : List.map fst m ≡ₚ List.map fst m') by by apply Permutation_map.
    by rewrite <- Hmap.
Qed.

Lemma appendAttrsWith_Permutation
    (f : Attr -> option (bool * list (string * value))) (l l' : list Attr) :
  l ≡ₚ l' ->
  match appendAttrsWith f l, appendAttrsWith f l' with
  | Some (b, ms), Some (b', ms') => b = b' /\ ms ≡ₚ ms'
  | None, None => True
  | _, _ => False
  end.
Proof.
  induction 1 as [|a l l' Hp IH|a1 a2 l|l l' l'' Hp1 IH1 Hp2 IH2];
    cbn [appendAttrsWith].
  - done.
  - destruct (f a) as [[b m]|]; cbn [mbind option_bind]; [|done].
    destruct (appendAttrsWith f l) as [[b1 m1]|],
             (appendAttrsWith f l') as [[b2 m2]|]; cbn [mbind option_bind];
      try done.
    destruct IH as [-> IH]. split; [reflexivity|]. by apply Permutation_app.
  - destruct (f a1) as [[b1 m1]|], (f a2) as [[b2 m2]|]; cbn [mbind option_bind];
      try done;
      destruct (appendAttrsWith f l) as [[b m]|]; cbn [mbind option_bind];
      try done.
    split; [by destruct b1, b2|].
    rewrite !app_assoc. apply Permutation_app; [apply Permutation_app_comm|done].
  - destruct (appendAttrsWith f l) as [[b m]|],
             (appendAttrsWith f l') as [[b' m']|],
             (appendAttrsWith f l'') as [[b'' m'']|]; try done.
    destruct IH1 as [-> IH1], IH2 as [-> IH2]. split; [reflexivity|].
    by etrans.
Qed.

Lemma members_Permutation (depth : nat) (hd : JSONHandler) (rec : Record)
    (attrs' : list Attr) :
  goas hd = [] ->
  Attrs rec ≡ₚ attrs' ->
  match members depth hd rec, members depth hd (setAttrs rec attrs') with
  | Some ms, Some ms' => ms ≡ₚ ms'
  | None, None => True
  | _, _ => False
  end.
Proof.
  intros Hgoas Hp. unfold members. rewrite Hgoas.
  cbn [setAttrs Time_ Level_ Message source Attrs nonBuiltIns].
  destruct (if Time_IsZero (Time_ rec) then _ else _) as [[b1 m1]|];
    cbn [mbind option_bind]; [|done].
  destruct (builtIn _ depth LevelKey _) as [[b2 m2]|]; cbn [mbind option_bind];
    [|done].
  destruct (if AddSource (opts hd) then _ else _) as [[b3 m3]|];
    cbn [mbind option_bind]; [|done].
  destruct (builtIn _ depth MessageKey _) as [[b4 m4]|]; cbn [mbind option_bind];
    [|done].
  pose proof (appendAttrsWith_Permutation
                (appendAttr (ReplaceAttr (opts hd)) depth []) _ _ Hp) as Hn.
  unfold appendAttrs.
  destruct (appendAttrsWith _ (Attrs rec)) as [[b5 m5]|],
           (appendAttrsWith _ attrs') as [[b6 m6]|]; cbn [mbind option_bind];
    try done.
  destruct Hn as [_ Hn]. by rewrite Hn.
Qed.

(** [computeAttrs] in full, with the JSON delegate writing into the
    handler's buffer when it is empty. *)
Lemma computeAttrs_JSONHandler_result (depth : nat)
    (this : flarelog.Handler JSONHandler) (rec : Record) (wd : World) :
  w (flarelog.h this) = flarelog.b this ->
  bytes.Bytes (bufs wd) (flarelog.b this) = "" ->
  @flarelog.computeAttrs _ (JSONHandler_Handler depth) this rec wd
  = (wd1 ← Lock (flarelog.m this) wd;
     ms ← members depth (flarelog.h this) rec;
     Some (Unlock (flarelog.m this)
             (setBufs (<[flarelog.b this := ""]> (bufs wd)) wd1),
           Ok (Some (assignAll toMaps ms [])))).
Proof.
  intros Hw Hb. unfold flarelog.computeAttrs.
  destruct (Lock (flarelog.m this) wd) as [wd1|] eqn:HL; [|reflexivity].
  destruct (Lock_Some _ _ _ HL) as (_ & _ & Hbufs).
  cbn [mbind option_bind].
  change (slog.Handle (flarelog.h this) rec (bufs wd1))
    with (JSONHandler_Handle depth (flarelog.h this) rec (bufs wd1)).
  unfold JSONHandler_Handle.
  destruct (members depth (flarelog.h this) rec) as [ms|]; [|reflexivity].
  cbn [mbind option_bind bufs setBufs].
  assert (Htext : bytes.Bytes
                    (bytes.Write (bufs wd1) (w (flarelog.h this))
                       (compact (Obj ms) +:+ newline)) (flarelog.b this)
                  = compact (Obj ms) +:+ newline).
  { rewrite Hw, Hbufs. unfold bytes.Write. unfold bytes.Bytes at 1.
    by rewrite lookup_insert_eq, Hb. }
  rewrite Htext, Unmarshal_compact_line.
  unfold flarelog.resetAndUnlock, bytes.Reset, bytes.Write.
  cbn [bufs setBufs]. by rewrite Hw, Hbufs, insert_insert_eq.
Qed.

(** X14. The order of a record's attributes does not matter to a handler
    made by [NewHandler], called with its buffer empty, when the members
    that the delegate writes for the record have distinct names: [Handle]
    does the same for every rearrangement of the attributes, because the
    attributes pass through a map and are marshalled in the order of their
    keys. *)
Theorem attrs_order_irrelevant (depth : nat) (opts : option HandlerOptions)
    (wd0 : World) (rec : Record) (attrs' : list Attr) (wd : World) :
  let this := fst (flarelog.NewHandler opts wd0) in
  bytes.Bytes (bufs wd) (flarelog.b this) = "" ->
  Attrs rec ≡ₚ attrs' ->
  (forall ms, members depth (flarelog.h this) rec = Some ms -> NoDup (List.map fst ms)) ->
  @flarelog.Handle _ (JSONHandler_Handler depth) this (setAttrs rec attrs') wd
  = @flarelog.Handle _ (JSONHandler_Handler depth) this rec wd.
Proof.
  intros this Hb Hp Hnd.
  assert (Hw : w (flarelog.h this) = flarelog.b this) by by destruct opts.
  assert (Hc : @flarelog.computeAttrs _ (JSONHandler_Handler depth) this
                 (setAttrs rec attrs') wd
               = @flarelog.computeAttrs _ (JSONHandler_Handler depth) this rec wd).
  { rewrite !computeAttrs_JSONHandler_result by done.
    destruct (Lock (flarelog.m this) wd) as [wd1|]; [|reflexivity].
    cbn [mbind option_bind].
    pose proof (members_Permutation depth (flarelog.h this) rec attrs'
                  ltac:(by destruct opts) Hp) as Hms.
    destruct (members depth (flarelog.h this) rec) as [ms|] eqn:E,
             (members depth (flarelog.h this) (setAttrs rec attrs')) as [ms'|];
      try done.
    cbn [mbind option_bind].
    by rewrite (assignAll_Permutation toMaps ms ms' Hms (Hnd ms eq_refl) []). }
  unfold flarelog.Handle. rewrite Hc. reflexivity.
Qed.

Lemma attrs_order_irrelevant_witness :
  @flarelog.Handle _ (JSONHandler_Handler 8) sampleHandler
    (setAttrs failedRecord
       [mkAttr "user" (StringValue "alice"); mkAttr "code" (Int64Value 500)])
    sampleStart
  = @flarelog.Handle _ (JSONHandler_Handler 8) sampleHandler
      (setAttrs failedRecord
         [mkAttr "code" (Int64Value 500); mkAttr "user" (StringValue "alice")])
      sampleStart.
Proof.
  apply (attrs_order_irrelevant 8 None sampleWorld
           (setAttrs failedRecord
              [mkAttr "code" (Int64Value 500); mkAttr "user" (StringValue "alice")])
           [mkAttr "user" (StringValue "alice"); mkAttr "code" (Int64Value 500)]
           sampleStart).
  - reflexivity.
  - apply perm_swap.
  - intros ms Hms. vm_compute in Hms. injection Hms as <-.
    apply (bool_decide_unpack _). reflexivity.
Defined.

(** ** The demonstration program *)

(** [Handle] in full when nothing fails, with the JSON delegate writing
    into the handler's buffer: the store is as before, one line has gone
    to each sink and the standard logger is redirected. *)
Lemma Handle_JSONHandler_nil (depth : nat) (this : flarelog.Handler JSONHandler)
    (rec : Record) (wd : World) (ms : list (string * value)) :
  w (flarelog.h this) = flarelog.b this ->
  bufs wd !! flarelog.b this = Some "" ->
  mutexes wd !! flarelog.m this = Some false ->
  openError wd = None ->
  members depth (flarelog.h this) rec = Some ms ->
  let lines :=
    flarelog.composeLines (flarelog.renderFields this rec)
      (indented 0 (sortKeys (Obj (assignAll toMaps ms [])))) in
  @flarelog.Handle _ (JSONHandler_Handler depth) this rec wd
  = ({| bufs := bufs wd; mutexes := mutexes wd;
        stdout := stdout wd ++ [fst lines]; stderr := stderr wd;
        logFile := logFile wd ++ [snd lines];
        logOutput := Some "./logs.log"; logFlags := 23; openError := None |},
     returns None).
Proof.
  intros Hw Hb Hm Hopen Hms lines.
  assert (HL : Lock (flarelog.m this) wd
               = Some (setMutexes (<[flarelog.m this := true]> (mutexes wd)) wd))
    by (unfold Lock, held; by rewrite Hm).
  unfold flarelog.Handle, flarelog.computeAttrs. rewrite HL.
  cbn [mbind option_bind bufs setMutexes].
  change (slog.Handle (flarelog.h this) rec (bufs wd))
    with (JSONHandler_Handle depth (flarelog.h this) rec (bufs wd)).
  unfold JSONHandler_Handle. rewrite Hms. cbn [mbind option_bind bufs setBufs].
  assert (Htext : bytes.Bytes
                    (bytes.Write (bufs wd) (w (flarelog.h this))
                       (compact (Obj ms) +:+ newline)) (flarelog.b this)
                  = compact (Obj ms) +:+ newline).
  { rewrite Hw. unfold bytes.Write, bytes.Bytes.
    by rewrite lookup_insert_eq, Hb. }
  rewrite Htext, Unmarshal_compact_line. unfold MarshalIndent.
  fold lines. destruct lines as [styledOut outForLog].
  unfold flarelog.openLogFile, flarelog.resetAndUnlock, Unlock, bytes.Reset,
    bytes.Write.
  cbn. rewrite Hopen, Hw, !insert_insert_eq, !insert_id by done.
  reflexivity.
Qed.

(** What the delegate of [test1]'s handler writes for a record without
    attributes: the call site. *)
Lemma members_site (d : nat) (wd0 : World) (c : main.call) (level : Level)
    (msg : string) :
  realSite c ->
  members (S (S d)) (flarelog.h (fst (flarelog.NewHandler (Some demoOptions) wd0)))
    (mkRecord (main.now c) msg level (main.pc c) [])
  = Some [(SourceKey,
           Obj [("function", Str (Function (main.pc c)));
                ("file", Str (File (main.pc c)));
                ("line", Num (Line (main.pc c)))])].
Proof.
  intros (Hfn%String.eqb_neq & Hfile%String.eqb_neq & Hline%Z.eqb_neq).
  rewrite members_NewHandler. unfold otherMembers.
  cbn [flarelog.NewHandler flarelog.newBuffer flarelog.newMutex fst flarelog.h
       NewJSONHandler slog.opts ReplaceAttr AddSource goas demoOptions source Attrs].
  cbn [appendAttr Val Key isGroup]. rewrite suppressDefaults_spec.
  cbn [Key Val wellKnown]. 
  change (wellKnown SourceKey) with false. cbv iota.
  change (isEmpty (mkAttr SourceKey (AnySource (main.pc c)))) with false. cbv iota.
  cbn [Val Key]. unfold Source_group. rewrite Hfn, Hfile, Hline.
  reflexivity.
Qed.

(** The two lines of a record when there is no rewrite hook. *)
Lemma composeLines_no_hook {H : Type} (this : flarelog.Handler H) (t : Time)
    (msg : string) (l : Level) (src : Source) (attrs : list Attr) (color : Z)
    (blob : string) :
  flarelog.r this = None ->
  flarelog.levelStyle l (Level_String l +:+ ":")
  = flarelog.colorize color (Level_String l +:+ ":") ->
  (0 <? String.length blob)%nat = true ->
  flarelog.composeLines (flarelog.renderFields this (mkRecord t msg l src attrs)) blob
  = (flarelog.colorize flarelog.lightGray (Format t flarelog.timeFormat) +:+ " "
     +:+ flarelog.colorize color (Level_String l +:+ ":") +:+ " "
     +:+ flarelog.colorize flarelog.white msg +:+ " "
     +:+ flarelog.colorize flarelog.darkGray blob,
     (Level_String l +:+ ":") +:+ " " +:+ " " +:+ msg +:+ " " +:+ blob).
Proof.
  intros Hr Hstyle Hblob.
  unfold flarelog.composeLines, flarelog.renderFields, flarelog.rewrite.
  rewrite Hr. cbn [Time_ Level_ Message Val Value_String].
  change (Attr_Equal (mkAttr LevelKey (AnyLevel l)) emptyAttr) with false.
  change (Attr_Equal (mkAttr TimeKey (StringValue (Format t flarelog.timeFormat)))
            emptyAttr) with false.
  change (Attr_Equal (mkAttr MessageKey (StringValue msg)) emptyAttr) with false.
  cbn [negb flarelog.timestamp flarelog.level flarelog.msg flarelog.outForLog].
  rewrite Hstyle, !colorize_nonempty, Hblob.
  change ("" +:+ ?x) with x.
  by rewrite !string_app_assoc.
Qed.

Lemma indented_site (s : Source) :
  indented 0
    (sortKeys
       (Obj (assignAll toMaps
               [(SourceKey,
                 Obj [("function", Str (Function s)); ("file", Str (File s));
                      ("line", Num (Line s))])] [])))
  = siteJSON s.
Proof.
  unfold siteJSON.
  lazy -[quote Itoa File Function Line append].
  rewrite !string_app_assoc. reflexivity.
Qed.

Lemma siteJSON_nonempty (s : Source) : (0 <? String.length (siteJSON s))%nat = true.
Proof. reflexivity. Qed.

(** One logging call of [test1]. *)
Lemma Logger_log_site (d : nat) (wd0 wd : World) (c : main.call) (level : Level)
    (msg : string) (color : Z) :
  let logger := fst (flarelog.NewHandler (Some demoOptions) wd0) in
  realSite c ->
  (LevelDebug <=? level) = true ->
  flarelog.levelStyle level (Level_String level +:+ ":")
  = flarelog.colorize color (Level_String level +:+ ":") ->
  bufs wd !! flarelog.b logger = Some "" ->
  mutexes wd !! flarelog.m logger = Some false ->
  openError wd = None ->
  @main.Logger_log _ (JSONHandler_Handler (S (S d))) logger level msg c wd
  = ({| bufs := bufs wd; mutexes := mutexes wd;
        stdout := stdout wd ++ [styledLine color (Level_String level +:+ ":") msg c];
        stderr := stderr wd;
        logFile := logFile wd ++ [plainLine (Level_String level +:+ ":") msg c];
        logOutput := Some "./logs.log"; logFlags := 23; openError := None |},
     returns None).
Proof.
  intros logger Hsite Hlevel Hstyle Hb Hm Hopen. unfold main.Logger_log.
  change (flarelog.Enabled logger level) with (LevelDebug <=? level).
  rewrite Hlevel.
  rewrite (Handle_JSONHandler_nil (S (S d)) logger _ wd _ eq_refl Hb Hm Hopen
             (members_site d wd0 c level msg Hsite)).
  rewrite indented_site.
  rewrite (composeLines_no_hook logger _ _ _ _ _ color _ eq_refl Hstyle
             (siteJSON_nonempty _)).
  reflexivity.
Qed.

(** X15. The demonstration program [test1], for any readings of the clock
    and any call sites that have a function, a file and a line, started in
    a world where the log file can be opened: it returns; it prints four
    lines on standard output and writes four to the log file, for the Info,
    Debug, Warn and Error records in the order of the calls, the Debug
    record included because the options set the level to Debug; the level
    texts are cyan, light gray, yellow and light red; every line ends with
    the call site as indented JSON, with the keys [file], [function] and
    [line] in this order; nothing goes to standard error. *)
Theorem test1_output (d : nat) (c1 c2 c3 c4 : main.call) (wd : World) :
  realSite c1 -> realSite c2 -> realSite c3 -> realSite c4 ->
  openError wd = None ->
  let result := main.test1 (S (S d)) c1 c2 c3 c4 wd in
  snd result = returns None
  /\ stdout (fst result)
     = stdout wd
       ++ [styledLine flarelog.cyan "INFO:" "Info Level Log" c1;
           styledLine flarelog.lightGray "DEBUG:" "This is a debug message" c2;
           styledLine flarelog.yellow "WARN:" "This is a warn message" c3;
           styledLine flarelog.lightRed "ERROR:" "This is an error message" c4]
  /\ logFile (fst result)
     = logFile wd
       ++ [plainLine "INFO:" "Info Level Log" c1;
           plainLine "DEBUG:" "This is a debug message" c2;
           plainLine "WARN:" "This is a warn message" c3;
           plainLine "ERROR:" "This is an error message" c4]
  /\ stderr (fst result) = stderr wd.
Proof.
  intros H1 H2 H3 H4 Hopen result. subst result. unfold main.test1.
  fold demoOptions.
  destruct (flarelog.NewHandler (Some demoOptions) wd) as [logger wd1] eqn:HN.
  assert (Hlogger : logger = fst (flarelog.NewHandler (Some demoOptions) wd))
    by by rewrite HN.
  assert (Hwd1 : wd1 = snd (flarelog.NewHandler (Some demoOptions) wd))
    by by rewrite HN.
  assert (Hb : bufs wd1 !! flarelog.b logger = Some "")
    by (subst; cbn; by rewrite lookup_insert_eq).
  assert (Hm : mutexes wd1 !! flarelog.m logger = Some false)
    by (subst; cbn; by rewrite lookup_insert_eq).
  assert (Hio : stdout wd1 = stdout wd /\ logFile wd1 = logFile wd
                /\ stderr wd1 = stderr wd /\ openError wd1 = None)
    by (subst wd1; by cbn).
  destruct Hio as (Hso & Hlf & Hse & Hopen1).
  rewrite Hlogger in Hb, Hm |- *.
  rewrite (Logger_log_site d wd wd1 c1 LevelInfo _ flarelog.cyan H1 eq_refl eq_refl
             Hb Hm Hopen1).
  cbn [main.andThen].
  match goal with
  | |- context [main.Logger_log _ LevelDebug _ c2 ?w] =>
      rewrite (Logger_log_site d wd w c2 LevelDebug _ flarelog.lightGray H2 eq_refl
                 eq_refl Hb Hm eq_refl)
  end.
  cbn [main.andThen].
  match goal with
  | |- context [main.Logger_log _ LevelWarn _ c3 ?w] =>
      rewrite (Logger_log_site d wd w c3 LevelWarn _ flarelog.yellow H3 eq_refl
                 eq_refl Hb Hm eq_refl)
  end.
  cbn [main.andThen].
  match goal with
  | |- context [main.Logger_log _ LevelError _ c4 ?w] =>
      rewrite (Logger_log_site d wd w c4 LevelError _ flarelog.lightRed H4 eq_refl
                 eq_refl Hb Hm eq_refl)
  end.
  cbn [fst snd stdout logFile stderr]. rewrite Hso, Hlf, Hse, <- !app_assoc.
  repeat split.
Qed.

Lemma test1_output_witness :
  snd (main.test1 2 sampleCall sampleCall sampleCall sampleCall sampleWorld)
  = returns None
  /\ length (logFile (fst (main.test1 2 sampleCall sampleCall sampleCall sampleCall
                             sampleWorld))) = 4%nat.
Proof.
  assert (Hsite : realSite sampleCall) by by repeat split.
  destruct (test1_output 0 sampleCall sampleCall sampleCall sampleCall sampleWorld
              Hsite Hsite Hsite Hsite eq_refl) as (Hend & _ & Hfile & _).
  split; [exact Hend|]. by rewrite Hfile.
Defined.
